(** * SPV header segment diagnostics: a shallow embedding

    The two diagnostic scripts of the repository ([search_mystery_hash.py]
    and [test_mystery_hash.py]) read the first header segment of the SPV
    store, cut it into 80-byte records, and print the double SHA-256 of
    records in display (byte-reversed, lowercase hex) form.

    The scripts are embedded as programs of a small state monad over a
    [World] (environment variables, file system, standard output and two
    ghost traces: the file-system calls made and the arguments handed to
    [hashlib.sha256]).  Their [print] writes to a standard output that
    can encode every line; for what depends on the encoding the scripts
    are given a second time with [print] as a parameter ([WithPrint]).
    The storage core the specification describes
    (HeaderCodec, SegmentFile, SegmentIndex, HeaderStore, BlockLocator) is
    not part of the sources; where a property is about it, it is modelled
    from the specification and marked as such. *)

From Stdlib Require Import NArith List Lia Sorted FunctionalExtensionality.
From Stdlib.Strings Require Import Byte String Ascii.
From stdpp Require Import gmap strings list pretty.
From Equations Require Import Equations.

(** ** hashlib.sha256 (FIPS 180-4), on 32-bit words carried in [N] *)

Module SHA256.
Local Open Scope N_scope.

Definition word_mask : N := 0xffffffff.
Definition wadd (x y : N) : N := N.land (x + y) word_mask.
Definition rotr (n x : N) : N :=
  N.lor (N.shiftr x n) (N.land (N.shiftl x (32 - n)) word_mask).
Definition shr (n x : N) : N := N.shiftr x n.
Definition wnot (x : N) : N := N.lxor x word_mask.

Definition Ch (x y z : N) : N := N.lxor (N.land x y) (N.land (wnot x) z).
Definition Maj (x y z : N) : N :=
  N.lxor (N.lxor (N.land x y) (N.land x z)) (N.land y z).
Definition Sigma0 (x : N) : N :=
  N.lxor (N.lxor (rotr 2 x) (rotr 13 x)) (rotr 22 x).
Definition Sigma1 (x : N) : N :=
  N.lxor (N.lxor (rotr 6 x) (rotr 11 x)) (rotr 25 x).
Definition sigma0 (x : N) : N :=
  N.lxor (N.lxor (rotr 7 x) (rotr 18 x)) (shr 3 x).
Definition sigma1 (x : N) : N :=
  N.lxor (N.lxor (rotr 17 x) (rotr 19 x)) (shr 10 x).

(** The round constants, eight to a row. *)
Definition K_rows : list (list N) :=
  [ [0x428a2f98; 0x71374491; 0xb5c0fbcf; 0xe9b5dba5; 0x3956c25b; 0x59f111f1; 0x923f82a4; 0xab1c5ed5];
    [0xd807aa98; 0x12835b01; 0x243185be; 0x550c7dc3; 0x72be5d74; 0x80deb1fe; 0x9bdc06a7; 0xc19bf174];
    [0xe49b69c1; 0xefbe4786; 0x0fc19dc6; 0x240ca1cc; 0x2de92c6f; 0x4a7484aa; 0x5cb0a9dc; 0x76f988da];
    [0x983e5152; 0xa831c66d; 0xb00327c8; 0xbf597fc7; 0xc6e00bf3; 0xd5a79147; 0x06ca6351; 0x14292967];
    [0x27b70a85; 0x2e1b2138; 0x4d2c6dfc; 0x53380d13; 0x650a7354; 0x766a0abb; 0x81c2c92e; 0x92722c85];
    [0xa2bfe8a1; 0xa81a664b; 0xc24b8b70; 0xc76c51a3; 0xd192e819; 0xd6990624; 0xf40e3585; 0x106aa070];
    [0x19a4c116; 0x1e376c08; 0x2748774c; 0x34b0bcb5; 0x391c0cb3; 0x4ed8aa4a; 0x5b9cca4f; 0x682e6ff3];
    [0x748f82ee; 0x78a5636f; 0x84c87814; 0x8cc70208; 0x90befffa; 0xa4506ceb; 0xbef9a3f7; 0xc67178f2] ].

Definition K : list N := concat K_rows.

Definition H0 : list N :=
  [ 0x6a09e667; 0xbb67ae85; 0x3c6ef372; 0xa54ff53a;
    0x510e527f; 0x9b05688c; 0x1f83d9ab; 0x5be0cd19 ].

Definition byte_of (x : N) : byte :=
  match Byte.of_N (N.land x 0xff) with Some b => b | None => x00 end.

(** The [n] low bytes of [x], most significant first. *)
Fixpoint be_bytes (n : nat) (x : N) : list byte :=
  match n with
  | O => []
  | S n' => be_bytes n' (N.shiftr x 8) ++ [byte_of x]
  end.

Definition be_word (bs : list byte) : N :=
  fold_left (fun acc b => N.lor (N.shiftl acc 8) (Byte.to_N b)) bs 0.

Definition pad (msg : list byte) : list byte :=
  let len := length msg in
  let zeros := Nat.modulo (64 - Nat.modulo (len + 9) 64) 64 in
  msg ++ [x80] ++ repeat x00 zeros ++ be_bytes 8 (8 * N.of_nat len).

Fixpoint chunks (fuel size : nat) (bs : list byte) : list (list byte) :=
  match fuel, bs with
  | O, _ | _, [] => []
  | S fuel', _ => firstn size bs :: chunks fuel' size (skipn size bs)
  end.

Fixpoint extend (n : nat) (w : list N) : list N :=
  match n with
  | O => w
  | S n' =>
      let t := length w in
      let back k := nth (t - k) w 0 in
      extend n' (w ++ [wadd (wadd (sigma1 (back 2%nat)) (back 7%nat))
                            (wadd (sigma0 (back 15%nat)) (back 16%nat))])
  end.

Definition schedule (block : list byte) : list N :=
  extend 48 (map be_word (chunks 16 4 block)).

Definition round (s : list N) (kw : N * N) : list N :=
  match s with
  | [a; b; c; d; e; f; g; h] =>
      let t1 :=
        wadd (wadd (wadd h (Sigma1 e)) (wadd (Ch e f g) (fst kw))) (snd kw) in
      let t2 := wadd (Sigma0 a) (Maj a b c) in
      [wadd t1 t2; a; b; c; wadd d t1; e; f; g]
  | _ => s
  end.

Definition compress (h : list N) (block : list byte) : list N :=
  let s := fold_left round (combine K (schedule block)) h in
  map (fun p => wadd (fst p) (snd p)) (combine h s).

Definition sha256 (msg : list byte) : list byte :=
  let p := pad msg in
  let hs := fold_left compress (chunks (length p) 64 p) H0 in
  flat_map (be_bytes 4) hs.

End SHA256.

(** The digest is an interface of the scripts: they only call
    [hashlib.sha256(x).digest()].  Results that do not depend on the
    digest's internals are stated for any instance. *)
Class Hashlib := { sha256 : list byte -> list byte }.

Definition fips180 : Hashlib := {| sha256 := SHA256.sha256 |}.

(** ** Python values the scripts use *)

Module Py.

(** [range(a, b)] *)
Definition range (a b : nat) : list nat := seq a (b - a).

(** [data[a:b]] for non-negative [a], [b]: both ends are clamped to
    [len(data)], and the slice is empty when the start is not before the
    stop. *)
Definition slice {A} (a b : nat) (data : list A) : list A :=
  take (b - a) (drop a data).

(** [bytes.hex()]: two lowercase digits per byte, high nibble first. *)
Definition hex_digit (n : N) : ascii :=
  if (n <? 10)%N then ascii_of_N (48 + n) else ascii_of_N (87 + n).

Fixpoint hex (bs : list byte) : string :=
  match bs with
  | [] => EmptyString
  | b :: bs' =>
      let n := Byte.to_N b in
      String (hex_digit (n / 16)) (String (hex_digit (n mod 16)) (hex bs'))
  end.

(** [bytes.fromhex] restricted to lowercase digits: the inverse of [hex]. *)
Definition unhex_digit (c : ascii) : option N :=
  let n := N_of_ascii c in
  if ((48 <=? n) && (n <? 58))%N then Some (n - 48)%N
  else if ((97 <=? n) && (n <? 103))%N then Some (n - 87)%N
  else None.

Fixpoint unhex (s : string) : option (list byte) :=
  match s with
  | EmptyString => Some []
  | String c1 (String c2 s') =>
      match unhex_digit c1, unhex_digit c2, unhex s' with
      | Some h, Some l, Some bs =>
          match Byte.of_N (16 * h + l) with
          | Some b => Some (b :: bs)
          | None => None
          end
      | _, _, _ => None
      end
  | String _ EmptyString => None
  end.

(** [str.startswith('/')] and [str.endswith('/')] *)
Definition starts_with_sep (s : string) : bool :=
  match s with
  | String c _ => bool_decide (c = "/"%char)
  | EmptyString => false
  end.

Fixpoint ends_with_sep (s : string) : bool :=
  match s with
  | EmptyString => false
  | String c EmptyString => bool_decide (c = "/"%char)
  | String _ s' => ends_with_sep s'
  end.

(** [os.path.join(a, b)] of posixpath, for two components. *)
Definition os_path_join (a b : string) : string :=
  if starts_with_sep b then b
  else if bool_decide (a = EmptyString) || ends_with_sep a then a +:+ b
  else a +:+ "/" +:+ b.


(** A line feed inside a printed string. *)
Definition nl : string := String (ascii_of_nat 10) EmptyString.

End Py.

(** ** The world a script runs in *)

Module Os.

Inductive exn :=
  | FileNotFoundError (path : string)
  | ValueError (msg : string)
  | UnsupportedOperation (msg : string)
  | UnicodeEncodeError (text : string).

Inductive result (A : Type) :=
  | Ok (a : A)
  | Raise (e : exn).
Arguments Ok {A} a.
Arguments Raise {A} e.

(** Calls that reach the file system, in program order. *)
Inductive fs_call :=
  | CallExists (path : string)
  | CallGetsize (path : string)
  | CallOpen (path mode : string)
  | CallRead (path : string).

Record World := mkWorld {
  environ : gmap string string;       (* os.environ *)
  files : gmap string (list byte);    (* regular files by path *)
  stdout : list string;               (* one entry per print() call *)
  fs_trace : list fs_call;            (* ghost: file-system calls made *)
  sha_trace : list (list byte)        (* ghost: arguments of hashlib.sha256 *)
}.

Definition M (A : Type) : Type := World -> result A * World.

Definition ret {A} (a : A) : M A := fun w => (Ok a, w).

Definition bind {A B} (m : M A) (k : A -> M B) : M B :=
  fun w =>
    match m w with
    | (Ok a, w') => k a w'
    | (Raise e, w') => (Raise e, w')
    end.

Definition raise {A} (e : exn) : M A := fun w => (Raise e, w).

Declare Scope py_scope.
Delimit Scope py_scope with py.
Notation "x <- m ;; k" := (bind m (fun x => k))
  (at level 100, m at next level, right associativity) : py_scope.
Notation "m ;; k" := (bind m (fun _ => k))
  (at level 100, right associativity) : py_scope.
Local Open Scope py_scope.

Definition log_fs (c : fs_call) (w : World) : World :=
  mkWorld (environ w) (files w) (stdout w) (fs_trace w ++ [c]) (sha_trace w).

Definition set_files (fs : gmap string (list byte)) (w : World) : World :=
  mkWorld (environ w) fs (stdout w) (fs_trace w) (sha_trace w).

(** [print(s)] on a standard output that can encode [s]; [print_to] below
    is the general case. *)
Definition print (s : string) : M unit :=
  fun w =>
    (Ok tt,
     mkWorld (environ w) (files w) (stdout w ++ [s]) (fs_trace w) (sha_trace w)).

(** [print(s)] on a standard output whose encoding can encode the strings
    [encodes] accepts, with the error handler 'strict': a string the
    encoding cannot encode raises UnicodeEncodeError and nothing of it is
    written.  The interpreter fixes the encoding at start-up, from
    PYTHONIOENCODING, PYTHONUTF8 and the locale. *)
Definition print_to (encodes : string -> bool) (s : string) : M unit :=
  fun w => if encodes s then print s w else (Raise (UnicodeEncodeError s), w).

(** [os.environ.get(name, default)] *)
Definition environ_get (name default : string) : M string :=
  fun w =>
    (Ok (match environ w !! name with Some v => v | None => default end), w).

(** [os.path.exists(path)] *)
Definition path_exists (path : string) : M bool :=
  fun w =>
    (Ok (bool_decide (is_Some (files w !! path))), log_fs (CallExists path) w).

(** [os.path.getsize(path)] *)
Definition getsize (path : string) : M nat :=
  fun w =>
    match files w !! path with
    | Some data => (Ok (length data), log_fs (CallGetsize path) w)
    | None => (Raise (FileNotFoundError path), log_fs (CallGetsize path) w)
    end.

(** An open file object: where it points and how it was opened. *)
Record file := mkFile { f_path : string; f_mode : string }.

(** [open(path, mode)] for the binary modes.  Only ['rb'] leaves the file
    system alone: ['wb'] truncates or creates, ['ab'] creates when absent. *)
Definition open_ (path mode : string) : M file :=
  fun w =>
    let w' := log_fs (CallOpen path mode) w in
    if bool_decide (mode = "rb") then
      match files w !! path with
      | Some _ => (Ok (mkFile path mode), w')
      | None => (Raise (FileNotFoundError path), w')
      end
    else if bool_decide (mode = "wb") then
      (Ok (mkFile path mode), set_files (<[path := []]> (files w)) w')
    else if bool_decide (mode = "ab") then
      match files w !! path with
      | Some _ => (Ok (mkFile path mode), w')
      | None => (Ok (mkFile path mode), set_files (<[path := []]> (files w)) w')
      end
    else (Raise (ValueError "invalid mode"), w').

(** [f.read()] on a freshly opened file: the whole content. *)
Definition read (f : file) : M (list byte) :=
  fun w =>
    let w' := log_fs (CallRead (f_path f)) w in
    if bool_decide (f_mode f = "rb") then
      match files w !! f_path f with
      | Some data => (Ok data, w')
      | None => (Raise (FileNotFoundError (f_path f)), w')
      end
    else (Raise (UnsupportedOperation "not readable"), w').

(** [hashlib.sha256(x).digest()]; the argument is recorded. *)
Definition sha256_digest `{Hashlib} (x : list byte) : M (list byte) :=
  fun w =>
    (Ok (sha256 x),
     mkWorld (environ w) (files w) (stdout w) (fs_trace w) (sha_trace w ++ [x])).

(** [for i in l: s = body(i, s)], with the loop-carried locals in [s]. *)
Fixpoint for_ {S} (l : list nat) (body : nat -> S -> M S) (s : S) : M S :=
  match l with
  | [] => ret s
  | i :: l' => s' <- body i s ;; for_ l' body s'
  end.

(** A conditional statement without an else branch. *)
Definition when (b : bool) (m : M unit) : M unit := if b then m else ret tt.

End Os.

(** ** What both scripts share: module-level constants *)

Definition mystery_hash : string :=
  "00000014ae902cd16b2109ee531d006780ad3303af01e7b938e182c30c99f749".
Definition expected_hash : string :=
  "0000001e340a0e6fb510d53c2316e8b0f3e27b2e6ee0002a23f228cfec723b06".
Definition segment_rel : string :=
  "Library/Application Support/Dash-Evo-Tool/spv/dash/headers/segment_0000.dat".

(** ** search_mystery_hash.py *)

Module SearchMysteryHash.
Import Py Os.
Local Open Scope py_scope.

Section Script.
Context `{Hashlib}.

(** Lines 39-45: the listing printed around a match at height [i]. *)
Definition surrounding (data : list byte) (header_size num_headers i : nat)
  : M unit :=
  for_ (range (Nat.max 0 (i - 2)) (Nat.min num_headers (i + 3)))
    (fun j _ =>
       let h_data := slice (j * header_size) ((j + 1) * header_size) data in
       h1 <- sha256_digest h_data ;;
       h2 <- sha256_digest h1 ;;
       let h_hex := hex (rev h2) in
       let marker := if bool_decide (j = i) then " <-- MYSTERY" else "" in
       print ("  Height " +:+ pretty j +:+ ": " +:+ h_hex +:+ marker)) tt.

(** Lines 27-50: the body of the search loop; the loop-carried locals are
    [(found_mystery, found_expected)]. *)
Definition search_body (data : list byte) (header_size num_headers : nat)
    (i : nat) (found : bool * bool) : M (bool * bool) :=
  let header_data := slice (i * header_size) ((i + 1) * header_size) data in
  hash1 <- sha256_digest header_data ;;
  hash2 <- sha256_digest hash1 ;;
  let hash_hex := hex (rev hash2) in
  found_mystery <-
    (if bool_decide (hash_hex = mystery_hash) then
       print ("🎯 FOUND MYSTERY HASH at height " +:+ pretty i +:+ "!") ;;
       print (nl +:+ "Surrounding headers:") ;;
       surrounding data header_size num_headers i ;;
       print "" ;;
       ret true
     else ret (fst found)) ;;
  found_expected <-
    (if bool_decide (hash_hex = expected_hash) then
       print ("✓ Found expected hash at height " +:+ pretty i) ;;
       ret true
     else ret (snd found)) ;;
  ret (found_mystery, found_expected).

(** Lines 67-73: the closing listing of the last five records. *)
Definition last_headers (data : list byte) (header_size num_headers : nat)
  : M unit :=
  for_ (range (Nat.max 0 (num_headers - 5)) num_headers)
    (fun i _ =>
       let header_data := slice (i * header_size) ((i + 1) * header_size) data in
       hash1 <- sha256_digest header_data ;;
       hash2 <- sha256_digest hash1 ;;
       let hash_hex := hex (rev hash2) in
       print ("  Height " +:+ pretty i +:+ ": " +:+ hash_hex)) tt.

(** Lines 15-73: the branch taken when the segment file exists. *)
Definition analyse (segment_path : string) : M unit :=
  f <- open_ segment_path "rb" ;;
  data <- read f ;;
  let header_size := 80 in
  let num_headers := length data / header_size in
  print ("Total headers in file: " +:+ pretty num_headers) ;;
  print ("Searching for mystery hash..." +:+ nl) ;;
  found <- for_ (range 0 num_headers)
             (search_body data header_size num_headers) (false, false) ;;
  when (negb (fst found))
    (print "❌ Mystery hash NOT found in the segment file" ;;
     print "   This suggests it's being generated incorrectly, not read from storage") ;;
  when (negb (snd found))
    (print "❌ Expected hash for height 2000 NOT found" ;;
     print "   The file may not contain headers up to 2000 yet") ;;
  print (nl +:+ "File analysis:") ;;
  print ("- File size: " +:+ pretty (length data) +:+ " bytes") ;;
  print ("- Complete headers: " +:+ pretty num_headers) ;;
  print ("- Leftover bytes: " +:+ pretty (length data mod header_size)) ;;
  print (nl +:+ "Last 5 headers in file:") ;;
  last_headers data header_size num_headers.

(** The whole script. *)
Definition main : M unit :=
  print "Searching for Mystery Hash in SPV Storage" ;;
  print ("=========================================" +:+ nl) ;;
  home <- environ_get "HOME" "." ;;
  let segment_path := os_path_join home segment_rel in
  found <- path_exists segment_path ;;
  if found then analyse segment_path
  else print ("Segment file not found: " +:+ segment_path).

End Script.
End SearchMysteryHash.

(** ** test_mystery_hash.py *)

Module TestMysteryHash.
Import Py Os.
Local Open Scope py_scope.

Section Script.
Context `{Hashlib}.

(** Lines 34-48: the body of the scan over heights 1998..2002. *)
Definition scan_body (data : list byte) (header_size : nat)
    (i : nat) (_ : unit) : M unit :=
  if bool_decide (i * header_size + header_size <= length data) then
    let header_data := slice (i * header_size) ((i + 1) * header_size) data in
    hash1 <- sha256_digest header_data ;;
    hash2 <- sha256_digest hash1 ;;
    let hash_hex := hex (rev hash2) in
    print ("  Height " +:+ pretty i +:+ ": " +:+ hash_hex) ;;
    if bool_decide (hash_hex = mystery_hash) then
      print ("    ^^^ FOUND MYSTERY HASH at height " +:+ pretty i +:+ "!")
    else if bool_decide (hash_hex = expected_hash) then
      print "    ^^^ This is the expected hash for height 2000"
    else ret tt
  else ret tt.

(** Lines 20-58: the branch taken when the segment file exists. *)
Definition analyse (segment_path : string) : M unit :=
  print ("Found segment file: " +:+ segment_path) ;;
  size <- getsize segment_path ;;
  print ("File size: " +:+ pretty size +:+ " bytes") ;;
  let header_size := 80 in
  let expected_size := 2001 * header_size in
  print ("Expected size for 2001 headers: " +:+ pretty expected_size +:+ " bytes") ;;
  f <- open_ segment_path "rb" ;;
  data <- read f ;;
  print (nl +:+ "Checking headers around position 2000:") ;;
  for_ (range 1998 2003) (scan_body data header_size) tt ;;
  print (nl +:+ "Recommendations:") ;;
  print "1. The mystery hash might be from:" ;;
  print "   - Reading the wrong height due to off-by-one error" ;;
  print "   - Block locator using wrong index" ;;
  print "   - Storage returning header from wrong position" ;;
  print "2. Add debug logging in dash-spv at:" ;;
  print "   - block_locator.rs when getting tip header" ;;
  print "   - storage get_header() method" ;;
  print "   - Before sending GetHeaders message".

(** The whole script. *)
Definition main : M unit :=
  print "Analyzing Mystery Hash in SPV Storage" ;;
  print ("====================================" +:+ nl) ;;
  print ("Expected hash at height 2000: " +:+ expected_hash) ;;
  print ("Mystery hash in GetHeaders:   " +:+ mystery_hash) ;;
  print "" ;;
  home <- environ_get "HOME" "." ;;
  let segment_path := os_path_join home segment_rel in
  found <- path_exists segment_path ;;
  if found then analyse segment_path
  else
    print ("Segment file not found: " +:+ segment_path) ;;
    print "SPV has not synced any headers yet".

End Script.
End TestMysteryHash.

(** ** Both scripts again, over the [print] of a given standard output

    The same statements in the same order, with [print] a parameter, so
    that a run can be given a standard output that refuses some lines. *)

Module WithPrint.
Import Py Os.
Local Open Scope py_scope.

Section Scripts.
Context `{Hashlib}.
Variable print : string -> M unit.

(** search_mystery_hash.py, lines 39-45. *)
Definition search_surrounding (data : list byte)
    (header_size num_headers i : nat) : M unit :=
  for_ (range (Nat.max 0 (i - 2)) (Nat.min num_headers (i + 3)))
    (fun j _ =>
       let h_data := slice (j * header_size) ((j + 1) * header_size) data in
       h1 <- sha256_digest h_data ;;
       h2 <- sha256_digest h1 ;;
       let h_hex := hex (rev h2) in
       let marker := if bool_decide (j = i) then " <-- MYSTERY" else "" in
       print ("  Height " +:+ pretty j +:+ ": " +:+ h_hex +:+ marker)) tt.

(** search_mystery_hash.py, lines 27-50. *)
Definition search_body (data : list byte) (header_size num_headers : nat)
    (i : nat) (found : bool * bool) : M (bool * bool) :=
  let header_data := slice (i * header_size) ((i + 1) * header_size) data in
  hash1 <- sha256_digest header_data ;;
  hash2 <- sha256_digest hash1 ;;
  let hash_hex := hex (rev hash2) in
  found_mystery <-
    (if bool_decide (hash_hex = mystery_hash) then
       print ("🎯 FOUND MYSTERY HASH at height " +:+ pretty i +:+ "!") ;;
       print (nl +:+ "Surrounding headers:") ;;
       search_surrounding data header_size num_headers i ;;
       print "" ;;
       ret true
     else ret (fst found)) ;;
  found_expected <-
    (if bool_decide (hash_hex = expected_hash) then
       print ("✓ Found expected hash at height " +:+ pretty i) ;;
       ret true
     else ret (snd found)) ;;
  ret (found_mystery, found_expected).

(** search_mystery_hash.py, lines 67-73. *)
Definition search_last_headers (data : list byte)
    (header_size num_headers : nat) : M unit :=
  for_ (range (Nat.max 0 (num_headers - 5)) num_headers)
    (fun i _ =>
       let header_data := slice (i * header_size) ((i + 1) * header_size) data in
       hash1 <- sha256_digest header_data ;;
       hash2 <- sha256_digest hash1 ;;
       let hash_hex := hex (rev hash2) in
       print ("  Height " +:+ pretty i +:+ ": " +:+ hash_hex)) tt.

(** search_mystery_hash.py, lines 15-73. *)
Definition search_analyse (segment_path : string) : M unit :=
  f <- open_ segment_path "rb" ;;
  data <- read f ;;
  let header_size := 80 in
  let num_headers := length data / header_size in
  print ("Total headers in file: " +:+ pretty num_headers) ;;
  print ("Searching for mystery hash..." +:+ nl) ;;
  found <- for_ (range 0 num_headers)
             (search_body data header_size num_headers) (false, false) ;;
  when (negb (fst found))
    (print "❌ Mystery hash NOT found in the segment file" ;;
     print "   This suggests it's being generated incorrectly, not read from storage") ;;
  when (negb (snd found))
    (print "❌ Expected hash for height 2000 NOT found" ;;
     print "   The file may not contain headers up to 2000 yet") ;;
  print (nl +:+ "File analysis:") ;;
  print ("- File size: " +:+ pretty (length data) +:+ " bytes") ;;
  print ("- Complete headers: " +:+ pretty num_headers) ;;
  print ("- Leftover bytes: " +:+ pretty (length data mod header_size)) ;;
  print (nl +:+ "Last 5 headers in file:") ;;
  search_last_headers data header_size num_headers.

(** search_mystery_hash.py, the whole script. *)
Definition search_main : M unit :=
  print "Searching for Mystery Hash in SPV Storage" ;;
  print ("=========================================" +:+ nl) ;;
  home <- environ_get "HOME" "." ;;
  let segment_path := os_path_join home segment_rel in
  found <- path_exists segment_path ;;
  if found then search_analyse segment_path
  else print ("Segment file not found: " +:+ segment_path).

(** test_mystery_hash.py, lines 34-48. *)
Definition test_scan_body (data : list byte) (header_size : nat)
    (i : nat) (_ : unit) : M unit :=
  if bool_decide (i * header_size + header_size <= length data) then
    let header_data := slice (i * header_size) ((i + 1) * header_size) data in
    hash1 <- sha256_digest header_data ;;
    hash2 <- sha256_digest hash1 ;;
    let hash_hex := hex (rev hash2) in
    print ("  Height " +:+ pretty i +:+ ": " +:+ hash_hex) ;;
    if bool_decide (hash_hex = mystery_hash) then
      print ("    ^^^ FOUND MYSTERY HASH at height " +:+ pretty i +:+ "!")
    else if bool_decide (hash_hex = expected_hash) then
      print "    ^^^ This is the expected hash for height 2000"
    else ret tt
  else ret tt.

(** test_mystery_hash.py, lines 20-58. *)
Definition test_analyse (segment_path : string) : M unit :=
  print ("Found segment file: " +:+ segment_path) ;;
  size <- getsize segment_path ;;
  print ("File size: " +:+ pretty size +:+ " bytes") ;;
  let header_size := 80 in
  let expected_size := 2001 * header_size in
  print ("Expected size for 2001 headers: " +:+ pretty expected_size +:+ " bytes") ;;
  f <- open_ segment_path "rb" ;;
  data <- read f ;;
  print (nl +:+ "Checking headers around position 2000:") ;;
  for_ (range 1998 2003) (test_scan_body data header_size) tt ;;
  print (nl +:+ "Recommendations:") ;;
  print "1. The mystery hash might be from:" ;;
  print "   - Reading the wrong height due to off-by-one error" ;;
  print "   - Block locator using wrong index" ;;
  print "   - Storage returning header from wrong position" ;;
  print "2. Add debug logging in dash-spv at:" ;;
  print "   - block_locator.rs when getting tip header" ;;
  print "   - storage get_header() method" ;;
  print "   - Before sending GetHeaders message".

(** test_mystery_hash.py, the whole script. *)
Definition test_main : M unit :=
  print "Analyzing Mystery Hash in SPV Storage" ;;
  print ("====================================" +:+ nl) ;;
  print ("Expected hash at height 2000: " +:+ expected_hash) ;;
  print ("Mystery hash in GetHeaders:   " +:+ mystery_hash) ;;
  print "" ;;
  home <- environ_get "HOME" "." ;;
  let segment_path := os_path_join home segment_rel in
  found <- path_exists segment_path ;;
  if found then test_analyse segment_path
  else
    print ("Segment file not found: " +:+ segment_path) ;;
    print "SPV has not synced any headers yet".

End Scripts.
End WithPrint.

(** ** The storage core

    None of the components below is in the sources: the repository holds
    only the two scripts that inspect the persisted format.  Each is
    written down from the specification's sections 4.1-4.5 and 7. *)

Module Store.

Inductive error :=
  | MalformedHeader
  | OutOfRange
  | HeightNotFound
  | NonSequentialWrite
  | HeightGap
  | CorruptSegment.

Inductive outcome (A : Type) :=
  | Done (a : A)
  | Failed (e : error).
Arguments Done {A} a.
Arguments Failed {A} e.

Definition record_size : nat := 80.

(** Modelled from the spec: HeaderCodec.hash, which is absent from the
    sources.  "SHA-256 applied twice, result byte-reversed." *)
Definition HeaderCodec_hash `{Hashlib} (header : list byte) : list byte :=
  rev (sha256 (sha256 header)).

(** Modelled from the spec: the SegmentFile component, which is absent
    from the sources.  A segment is its capacity and the bytes of its
    file. *)
Record SegmentFile := mkSegment { capacity : nat; content : list byte }.

(** Modelled from the spec: SegmentFile.record_count, [file_size / 80]. *)
Definition record_count (s : SegmentFile) : nat :=
  length (content s) / record_size.

(** Modelled from the spec: opening a segment file, which "must verify
    [file_size % 80 == 0] at open time, failing with CorruptSegment
    otherwise". *)
Definition open (cap : nat) (file : list byte) : outcome SegmentFile :=
  if length file mod record_size =? 0 then Done (mkSegment cap file)
  else Failed CorruptSegment.

(** Modelled from the spec: SegmentFile.read, which "fails with OutOfRange
    if [offset >= capacity] or the file has fewer than [offset+1] records"
    and "computes byte position as [offset * 80]". *)
Definition read (s : SegmentFile) (offset : nat) : outcome (list byte) :=
  if (capacity s <=? offset) || (record_count s <? offset + 1) then
    Failed OutOfRange
  else
    let position := offset * record_size in
    Done (take record_size (drop position (content s))).

(** Modelled from the spec: the SegmentIndex component, which is absent
    from the sources.  [tip_height] is none on an empty chain. *)
Record SegmentIndex := mkIndex {
  index_capacity : nat;
  tip_height : option nat
}.

(** Modelled from the spec: SegmentIndex.height_to_location, "pure
    arithmetic". *)
Definition height_to_location (ix : SegmentIndex) (height : nat) : nat * nat :=
  (height / index_capacity ix, height mod index_capacity ix).

(** Modelled from the spec: SegmentIndex.advance, "only valid if
    [height == tip_height() + 1] (or [0] for genesis); else fails with
    HeightGap".  The index is threaded through: the second component is
    the index after the call. *)
Definition advance (height : nat) (ix : SegmentIndex)
  : outcome unit * SegmentIndex :=
  match tip_height ix with
  | None =>
      if height =? 0 then (Done tt, mkIndex (index_capacity ix) (Some height))
      else (Failed HeightGap, ix)
  | Some tip =>
      if height =? tip + 1 then
        (Done tt, mkIndex (index_capacity ix) (Some height))
      else (Failed HeightGap, ix)
  end.

(** Modelled from the spec: the HeaderStore facade, which is absent from
    the sources. *)
Record HeaderStore := mkStore {
  segments : list SegmentFile;      (* by ascending segment id *)
  index : SegmentIndex
}.

(** Opening the segment files in ascending id order; the first failure
    is the result. *)
Fixpoint open_all (cap : nat) (files : list (list byte))
  : outcome (list SegmentFile) :=
  match files with
  | [] => Done []
  | file :: rest =>
      match open cap file with
      | Failed e => Failed e
      | Done s =>
          match open_all cap rest with
          | Failed e => Failed e
          | Done ss => Done (s :: ss)
          end
      end
  end.

(** Modelled from the spec: startup recovery, "for each segment file in
    ascending id order, verify [record_count] is well-formed; reconcile
    index tip with the sum of [record_count] across segments; ... trust
    the on-disk counts and rebuild the index".  [persisted_tip] is the
    tip the index recorded before the restart. *)
Definition startup (cap : nat) (files : list (list byte))
    (persisted_tip : option nat) : outcome HeaderStore :=
  match open_all cap files with
  | Failed e => Failed e
  | Done segs =>
      let total := foldr (fun s n => record_count s + n) 0 segs in
      let on_disk := if total =? 0 then None else Some (total - 1) in
      let tip :=
        if bool_decide (persisted_tip = on_disk) then persisted_tip
        else on_disk in
      Done (mkStore segs (mkIndex cap tip))
  end.

(** Modelled from the spec: HeaderStore.get_header, which "fails with
    HeightNotFound if [height > tip_height()]". *)
Definition get_header (st : HeaderStore) (height : nat)
  : outcome (list byte) :=
  match tip_height (index st) with
  | None => Failed HeightNotFound
  | Some tip =>
      if tip <? height then Failed HeightNotFound
      else
        let (segment_id, offset) := height_to_location (index st) height in
        match segments st !! segment_id with
        | Some s => read s offset
        | None => Failed OutOfRange
        end
  end.

(** Modelled from the spec: SegmentFile.write, which is absent from the
    sources.  "Writes are only permitted at the current end-of-file
    offset ([offset == current_record_count]), else fails with
    NonSequentialWrite."  The segment after the call is the second
    component. *)
Definition write (offset : nat) (header : list byte) (s : SegmentFile)
  : outcome unit * SegmentFile :=
  if offset =? record_count s then
    (Done tt, mkSegment (capacity s) (content s ++ header))
  else (Failed NonSequentialWrite, s).

(** Modelled from the spec: the height after the tip, "computes next
    height via index"; 0 on an empty chain. *)
Definition next_height (ix : SegmentIndex) : nat :=
  match tip_height ix with
  | None => 0
  | Some tip => tip + 1
  end.

(** Modelled from the spec: HeaderStore.append, which is absent from the
    sources, for a pair (height, header_bytes) as the upstream validator
    supplies it.  It "computes next height via index, resolves (segment,
    offset) via SegmentIndex, calls SegmentFile.write, then
    SegmentIndex.advance; only on all-succeeding does it report the new
    height", with "the index update last".  The height check is made by
    advance, "the single invariant-enforcement point", on the height
    supplied.  A segment file "is created lazily on first write to it".
    The store after the call is the second component. *)
Definition append (height : nat) (header : list byte) (st : HeaderStore)
  : outcome nat * HeaderStore :=
  let ix := index st in
  let (segment_id, offset) := height_to_location ix (next_height ix) in
  let s := default (mkSegment (index_capacity ix) []) (segments st !! segment_id) in
  match write offset header s with
  | (Failed e, _) => (Failed e, st)
  | (Done _, s') =>
      let segs :=
        if segment_id <? length (segments st) then
          <[segment_id := s']> (segments st)
        else segments st ++ [s'] in
      match advance height ix with
      | (Failed e, ix') => (Failed e, mkStore segs ix')
      | (Done _, ix') => (Done height, mkStore segs ix')
      end
  end.

(** Modelled from the spec: HeaderStore.get_hash, "composition of
    [get_header] + [HeaderCodec.hash]". *)
Definition get_hash `{Hashlib} (st : HeaderStore) (height : nat)
  : outcome (list byte) :=
  match get_header st height with
  | Done header => Done (HeaderCodec_hash header)
  | Failed e => Failed e
  end.

End Store.

(** ** The block locator *)

Module BlockLocator.

(** Modelled from the spec: the heights BlockLocator.build visits, which
    is absent from the sources.  "Include the hashes at heights [tip,
    tip-1, tip-2, tip-3, tip-4, tip-6, tip-10, tip-18, ...] (step doubles
    after the first 4 entries) down to and including genesis (height 0),
    stopping once height would go negative (clamp to 0 and include it
    exactly once, then stop)."  [emitted] counts the entries before
    [height]; the step is positive by its type. *)
Equations? heights_from (height : nat) (step : positive) (emitted : nat)
  : list nat by wf height lt :=
heights_from height step emitted with decide (height = 0) := {
  | left _ => [height]
  | right _ =>
      let step' := if 4 <? S emitted then (2 * step)%positive else step in
      height ::
        heights_from
          (if height <? Pos.to_nat step' then 0 else height - Pos.to_nat step')
          step' (S emitted) }.
Proof. destruct (Nat.ltb_spec height (Pos.to_nat step')); lia. Qed.

Definition heights (tip : nat) : list nat := heights_from tip 1 0.

(** Modelled from the spec: BlockLocator.build, the hashes at those
    heights, read through the store's height-indexed accessor. *)
Definition build `{Hashlib} (st : Store.HeaderStore) (tip : nat)
  : list (Store.outcome (list byte)) :=
  map (Store.get_hash st) (heights tip).

End BlockLocator.

(** ** What a run does, as functions of the segment bytes

    For each script: the lines it prints, the file-system calls it makes
    and the byte strings it hands to the digest, written as plain list
    functions.  The scripts are proved to realise them below. *)

Module Report.
Import Py Os.

(** The world after printing [out], making the calls [calls] and hashing
    [hashed], in that order within each channel. *)
Definition effect (w : World) (out : list string) (calls : list fs_call)
    (hashed : list (list byte)) : World :=
  mkWorld (environ w) (files w) (stdout w ++ out) (fs_trace w ++ calls)
          (sha_trace w ++ hashed).


Section Reports.
Context `{Hashlib}.

(** The record at height [i]: bytes [i*80 .. (i+1)*80) of the file. *)
Definition record (data : list byte) (i : nat) : list byte :=
  slice (i * 80) ((i + 1) * 80) data.

(** A hash as the scripts show it. *)
Definition display_hash (header : list byte) : string :=
  hex (Store.HeaderCodec_hash header).

Definition is_mystery (data : list byte) (i : nat) : bool :=
  bool_decide (display_hash (record data i) = mystery_hash).
Definition is_expected (data : list byte) (i : nat) : bool :=
  bool_decide (display_hash (record data i) = expected_hash).

(** The digest calls made for the records at the heights [l]. *)
Definition hashed_at (data : list byte) (l : list nat) : list (list byte) :=
  flat_map (fun i => [record data i; sha256 (record data i)]) l.

Definition segment_path (home : option string) : string :=
  os_path_join (default "." home) segment_rel.

(** *** search_mystery_hash.py *)

Definition surrounding_range (n i : nat) : list nat :=
  range (Nat.max 0 (i - 2)) (Nat.min n (i + 3)).

Definition surrounding_line (data : list byte) (i j : nat) : string :=
  "  Height " +:+ pretty j +:+ ": " +:+ display_hash (record data j) +:+
  (if bool_decide (j = i) then " <-- MYSTERY" else "").

Definition found_mystery_line (i : nat) : string :=
  "🎯 FOUND MYSTERY HASH at height " +:+ pretty i +:+ "!".
Definition found_expected_line (i : nat) : string :=
  "✓ Found expected hash at height " +:+ pretty i.

Definition search_lines (data : list byte) (n i : nat) : list string :=
  (if is_mystery data i then
     [found_mystery_line i; nl +:+ "Surrounding headers:"] ++
     map (surrounding_line data i) (surrounding_range n i) ++ [""]
   else []) ++
  (if is_expected data i then [found_expected_line i] else []).

Definition search_heights (data : list byte) (n i : nat) : list nat :=
  i :: (if is_mystery data i then surrounding_range n i else []).

Definition last_range (n : nat) : list nat := range (Nat.max 0 (n - 5)) n.

Definition height_line (data : list byte) (i : nat) : string :=
  "  Height " +:+ pretty i +:+ ": " +:+ display_hash (record data i).

(** Every height whose record the search script hashes, in order. *)
Definition search_hashed_heights (data : list byte) : list nat :=
  let n := length data / 80 in
  flat_map (search_heights data n) (range 0 n) ++ last_range n.

Definition search_analysis (data : list byte) : list string :=
  let n := length data / 80 in
  [ "Total headers in file: " +:+ pretty n;
    "Searching for mystery hash..." +:+ nl ] ++
  flat_map (search_lines data n) (range 0 n) ++
  (if existsb (is_mystery data) (range 0 n) then []
   else [ "❌ Mystery hash NOT found in the segment file";
          "   This suggests it's being generated incorrectly, not read from storage" ]) ++
  (if existsb (is_expected data) (range 0 n) then []
   else [ "❌ Expected hash for height 2000 NOT found";
          "   The file may not contain headers up to 2000 yet" ]) ++
  [ nl +:+ "File analysis:";
    "- File size: " +:+ pretty (length data) +:+ " bytes";
    "- Complete headers: " +:+ pretty n;
    "- Leftover bytes: " +:+ pretty (length data mod 80);
    nl +:+ "Last 5 headers in file:" ] ++
  map (height_line data) (last_range n).

Definition search_banner : list string :=
  [ "Searching for Mystery Hash in SPV Storage";
    "=========================================" +:+ nl ].

(** The parts of the report around the search loop: lines 8-9 and 21-22
    before it, lines 52-58 and 61-64 after it. *)
Definition search_head (data : list byte) : list string :=
  search_banner ++
  [ "Total headers in file: " +:+ pretty (length data / 80);
    "Searching for mystery hash..." +:+ nl ].

Definition search_verdict (data : list byte) : list string :=
  let n := length data / 80 in
  (if existsb (is_mystery data) (range 0 n) then []
   else [ "❌ Mystery hash NOT found in the segment file";
          "   This suggests it's being generated incorrectly, not read from storage" ]) ++
  (if existsb (is_expected data) (range 0 n) then []
   else [ "❌ Expected hash for height 2000 NOT found";
          "   The file may not contain headers up to 2000 yet" ]).

Definition search_sizes (data : list byte) : list string :=
  [ nl +:+ "File analysis:";
    "- File size: " +:+ pretty (length data) +:+ " bytes";
    "- Complete headers: " +:+ pretty (length data / 80);
    "- Leftover bytes: " +:+ pretty (length data mod 80) ].

Definition not_found_line (path : string) : string :=
  "Segment file not found: " +:+ path.

(** Output, file-system calls and digest arguments of a run, given the
    value of HOME and the file at the segment path (if any). *)
Definition search_output (home : option string) (file : option (list byte))
  : list string :=
  search_banner ++
  match file with
  | Some data => search_analysis data
  | None => [not_found_line (segment_path home)]
  end.

Definition search_calls (home : option string) (file : option (list byte))
  : list fs_call :=
  let p := segment_path home in
  match file with
  | Some _ => [CallExists p; CallOpen p "rb"; CallRead p]
  | None => [CallExists p]
  end.

Definition search_hashed (file : option (list byte)) : list (list byte) :=
  match file with
  | Some data => hashed_at data (search_hashed_heights data)
  | None => []
  end.

(** *** test_mystery_hash.py *)

Definition scan_guard (data : list byte) (i : nat) : bool :=
  bool_decide (i * 80 + 80 <= length data).

Definition scan_found_line (i : nat) : string :=
  "    ^^^ FOUND MYSTERY HASH at height " +:+ pretty i +:+ "!".

Definition scan_lines (data : list byte) (i : nat) : list string :=
  if scan_guard data i then
    height_line data i ::
    (if is_mystery data i then [scan_found_line i]
     else if is_expected data i then
       ["    ^^^ This is the expected hash for height 2000"]
     else [])
  else [].

(** Every height whose record the test script hashes, in order. *)
Definition test_hashed_heights (data : list byte) : list nat :=
  filter (fun i => scan_guard data i = true) (range 1998 2003).

Definition test_banner : list string :=
  [ "Analyzing Mystery Hash in SPV Storage";
    "====================================" +:+ nl;
    "Expected hash at height 2000: " +:+ expected_hash;
    "Mystery hash in GetHeaders:   " +:+ mystery_hash;
    "" ].

Definition recommendations : list string :=
  [ nl +:+ "Recommendations:";
    "1. The mystery hash might be from:";
    "   - Reading the wrong height due to off-by-one error";
    "   - Block locator using wrong index";
    "   - Storage returning header from wrong position";
    "2. Add debug logging in dash-spv at:";
    "   - block_locator.rs when getting tip header";
    "   - storage get_header() method";
    "   - Before sending GetHeaders message" ].

Definition test_head (path : string) (data : list byte) : list string :=
  [ "Found segment file: " +:+ path;
    "File size: " +:+ pretty (length data) +:+ " bytes";
    "Expected size for 2001 headers: " +:+ pretty (2001 * 80) +:+ " bytes";
    nl +:+ "Checking headers around position 2000:" ].

Definition test_analysis (path : string) (data : list byte) : list string :=
  test_head path data ++
  flat_map (scan_lines data) (range 1998 2003) ++
  recommendations.

Definition test_output (home : option string) (file : option (list byte))
  : list string :=
  test_banner ++
  match file with
  | Some data => test_analysis (segment_path home) data
  | None => [ not_found_line (segment_path home);
              "SPV has not synced any headers yet" ]
  end.

Definition test_calls (home : option string) (file : option (list byte))
  : list fs_call :=
  let p := segment_path home in
  match file with
  | Some _ => [CallExists p; CallGetsize p; CallOpen p "rb"; CallRead p]
  | None => [CallExists p]
  end.

Definition test_hashed (file : option (list byte)) : list (list byte) :=
  match file with
  | Some data => hashed_at data (test_hashed_heights data)
  | None => []
  end.

End Reports.
End Report.

(** ** Reasoning about runs *)

Module Run.
Import Py Os Report.

(** [m] returns [a] in every world, having printed [out] and hashed
    [hashed], with no file-system call. *)
Definition emits {A} (m : M A) (a : A) (out : list string)
    (hashed : list (list byte)) : Prop :=
  forall w, m w = (Ok a, effect w out [] hashed).

(** Started in [w], [m] returns [a] normally and leaves [w] extended by
    the output [out], the calls [calls] and the digest arguments
    [hashed]; the environment and the files are those of [w]. *)
Definition runs {A} (m : M A) (w : World) (a : A) (out : list string)
    (calls : list fs_call) (hashed : list (list byte)) : Prop :=
  m w = (Ok a, effect w out calls hashed).

(** A file-system call that cannot change a file: anything but an open
    in a mode other than ['rb']. *)
Definition opens_read_only (c : fs_call) : Prop :=
  match c with
  | CallOpen _ mode => mode = "rb"
  | _ => True
  end.



(** The path a file-system call is about. *)
Definition call_path (c : fs_call) : string :=
  match c with
  | CallExists path | CallGetsize path | CallOpen path _ | CallRead path => path
  end.

End Run.

(** ** Concrete inputs *)

Module Demo.
Import Py Os.

(** An 80-byte header with a well-known double hash (the Bitcoin genesis
    block header), as test data for the digest and the scripts. *)
Definition header_hex : string :=
  "0100000000000000000000000000000000000000000000000000000000000000" +:+
  "000000003ba3edfd7a7b12b27ac72c3e67768f617fc81bc3888a51323a9fb8aa" +:+
  "4b1e5e4a29ab5f49ffff001d1dac2b7c".

Definition header : list byte := default [] (unhex header_hex).

(** A segment of two records followed by one leftover byte. *)
Definition segment : list byte := header ++ repeat x00 80 ++ [x01].

Definition home : string := "/Users/dash".

Definition segment_file : string :=
  "/Users/dash/Library/Application Support/Dash-Evo-Tool/spv/dash/headers/segment_0000.dat".

(** A world with HOME set and the segment in place. *)
Definition world : World :=
  mkWorld {[ "HOME" := home ]} {[ segment_file := segment ]} [] [] [].

(** The same HOME and segment among other variables and files. *)
Definition busy_world : World :=
  mkWorld {[ "HOME" := home; "LANG" := "C" ]}
          {[ segment_file := segment; "/tmp/notes.txt" := [x02; x03] ]}
          [] [] [].

(** A world where HOME is unset and no file exists. *)
Definition empty_world : World := mkWorld ∅ ∅ [] [] [].

(** A world whose segment is too short to hold a single record. *)
Definition short_world : World :=
  mkWorld {[ "HOME" := home ]} {[ segment_file := [x01; x02; x03] ]} [] [] [].

(** The demo segment cut back to its complete records, and grown by the
    79 bytes that complete a third record. *)
Definition trimmed_world : World :=
  mkWorld {[ "HOME" := home ]} {[ segment_file := take 160 segment ]} [] [] [].

Definition grown_world : World :=
  mkWorld {[ "HOME" := home ]}
          {[ segment_file := segment ++ repeat x00 79 ]} [] [] [].

(** A store as the specification gives its example: heights 0 to 3
    committed in one segment, height 4 not yet there. *)
Definition store : Store.HeaderStore :=
  Store.mkStore [Store.mkSegment 2000 (header ++ header ++ header ++ header)]
                (Store.mkIndex 2000 (Some 3)).

(** A stand-in for hashlib, to exercise the branch the search script takes
    on a match (no header with the mystery hash is at hand): inputs whose
    first byte is zero are left as they are, every other input is sent to
    the digest that displays as [mystery_hash]. *)
Definition mystery_digest : list byte := rev (default [] (unhex mystery_hash)).

Definition oracle : Hashlib :=
  {| sha256 := fun x =>
       if Byte.eqb (hd x00 x) x00 then x else mystery_digest |}.

End Demo.

(** * Properties *)

Import Py Os Report Run.
Local Open Scope py_scope.

(** ** Each script realises its report *)

Lemma effect_nil w : effect w [] [] [] = w.
Proof. destruct w; unfold effect; simpl. by rewrite !app_nil_r. Qed.

Lemma effect_effect w o c h o' c' h' :
  effect (effect w o c h) o' c' h' = effect w (o ++ o') (c ++ c') (h ++ h').
Proof. unfold effect; simpl. by rewrite !app_assoc. Qed.

Section Refinement.
Context `{Hashlib}.

Lemma emits_ret {A} (a : A) : emits (ret a) a [] [].
Proof. intros w. unfold ret. by rewrite effect_nil. Qed.

Lemma emits_print s : emits (print s) tt [s] [].
Proof. intros w. unfold print, effect. simpl. by rewrite !app_nil_r. Qed.

Lemma emits_sha x : emits (sha256_digest x) (sha256 x) [] [x].
Proof. intros w. unfold sha256_digest, effect. simpl. by rewrite !app_nil_r. Qed.

Lemma emits_bind {A B} (m : M A) (k : A -> M B) a b o h o' h' :
  emits m a o h -> emits (k a) b o' h' -> emits (bind m k) b (o ++ o') (h ++ h').
Proof.
  intros Hm Hk w. unfold bind. rewrite Hm, Hk, effect_effect. reflexivity.
Qed.

Lemma emits_eq {A} (m : M A) a o h o' h' :
  emits m a o h -> o = o' -> h = h' -> emits m a o' h'.
Proof. by intros ? <- <-. Qed.

Lemma emits_for {S} (body : nat -> S -> M S) (f : nat -> S -> S)
    (out : nat -> list string) (hs : nat -> list (list byte)) :
  (forall i s, emits (body i s) (f i s) (out i) (hs i)) ->
  forall l s,
    emits (for_ l body s) (fold_left (fun s i => f i s) l s)
          (flat_map out l) (flat_map hs l).
Proof.
  intros Hb l. induction l as [|i l IH]; intros s; simpl.
  - apply emits_ret.
  - eapply emits_bind; [apply Hb | apply IH].
Qed.



Lemma emits_seq {A B} (m : M A) (k : A -> M B) a b o h o' h' oo hh :
  emits m a o h -> emits (k a) b o' h' ->
  oo = o ++ o' -> hh = h ++ h' -> emits (bind m k) b oo hh.
Proof. intros Hm Hk -> ->. by eapply emits_bind. Qed.

Lemma emits_loop (body : nat -> unit -> M unit)
    (out : nat -> string) (data : list byte) :
  (forall i, emits (body i tt) tt [out i] [record data i; sha256 (record data i)]) ->
  forall l, emits (for_ l body tt) tt (map out l) (hashed_at data l).
Proof.
  intros Hb l. induction l as [|i l IH]; simpl.
  - apply emits_ret.
  - eapply emits_seq; [apply Hb | apply IH | reflexivity | reflexivity].
Qed.

Ltac emits_leaf :=
  first [ apply emits_print | apply emits_sha | apply emits_ret ].

Ltac emits_run :=
  cbv beta zeta iota;
  lazymatch goal with
  | |- emits (bind _ _) _ _ _ =>
      eapply emits_seq; [ emits_run | emits_run | reflexivity | reflexivity ]
  | |- _ => emits_leaf
  end.

Lemma surrounding_emits data n i :
  emits (SearchMysteryHash.surrounding data 80 n i) tt
        (map (surrounding_line data i) (surrounding_range n i))
        (hashed_at data (surrounding_range n i)).
Proof. apply emits_loop. intros j. emits_run. Qed.

Lemma last_headers_emits data n :
  emits (SearchMysteryHash.last_headers data 80 n) tt
        (map (height_line data) (last_range n))
        (hashed_at data (last_range n)).
Proof. apply emits_loop. intros j. emits_run. Qed.


Lemma emits_sha_bind {B} x (k : list byte -> M B) b o h hh :
  hh = x :: h -> emits (k (sha256 x)) b o h ->
  emits (bind (sha256_digest x) k) b o hh.
Proof.
  intros -> Hk. eapply emits_seq; [apply emits_sha | apply Hk | | ]; reflexivity.
Qed.

Lemma emits_eq' {A} (m : M A) a a' o h o' h' :
  emits m a o h -> a = a' -> o = o' -> h = h' -> emits m a' o' h'.
Proof. by intros ? <- <- <-. Qed.

Lemma hashed_at_cons data i l :
  hashed_at data (i :: l) =
  record data i :: sha256 (record data i) :: hashed_at data l.
Proof. reflexivity. Qed.

Ltac emits_leaf ::=
  first [ apply emits_print | apply emits_sha | apply emits_ret
        | apply surrounding_emits | apply last_headers_emits ].

Lemma search_body_emits data n i found :
  emits (SearchMysteryHash.search_body data 80 n i found)
        (is_mystery data i || fst found, is_expected data i || snd found)
        (search_lines data n i)
        (hashed_at data (search_heights data n i)).
Proof.
  unfold SearchMysteryHash.search_body, search_lines, search_heights.
  cbv zeta. rewrite hashed_at_cons.
  eapply emits_sha_bind; [reflexivity|].
  eapply emits_sha_bind; [reflexivity|].
  change (hex (rev (sha256 (sha256 (slice (i * 80) ((i + 1) * 80) data)))))
    with (display_hash (record data i)).
  fold (is_mystery data i) (is_expected data i).
  destruct (is_mystery data i), (is_expected data i);
    (eapply emits_eq'; [emits_run | ..]);
    simpl; rewrite ?app_nil_r; reflexivity.
Qed.

Lemma hashed_at_app data l1 l2 :
  hashed_at data (l1 ++ l2) = hashed_at data l1 ++ hashed_at data l2.
Proof. unfold hashed_at. apply flat_map_app. Qed.

Lemma search_loop_emits data n l found :
  emits (for_ l (SearchMysteryHash.search_body data 80 n) found)
        (existsb (is_mystery data) l || fst found,
         existsb (is_expected data) l || snd found)
        (flat_map (search_lines data n) l)
        (hashed_at data (flat_map (search_heights data n) l)).
Proof.
  revert found. induction l as [|i l IH]; intros found; simpl for_.
  - destruct found. apply emits_ret.
  - eapply emits_eq'.
    + eapply emits_seq; [apply search_body_emits | apply IH | | ]; reflexivity.
    + simpl. f_equal.
      * destruct (is_mystery data i), (existsb (is_mystery data) l); reflexivity.
      * destruct (is_expected data i), (existsb (is_expected data) l); reflexivity.
    + reflexivity.
    + change (flat_map (search_heights data n) (i :: l)) with (search_heights data n i ++ flat_map (search_heights data n) l). by rewrite hashed_at_app.
Qed.

Lemma runs_emits {A} (m : M A) w a o h : emits m a o h -> runs m w a o [] h.
Proof. intros Hm. apply Hm. Qed.

Lemma runs_seq {A B} (m : M A) (k : A -> M B) w a b o c h o' c' h' oo cc hh :
  runs m w a o c h -> runs (k a) (effect w o c h) b o' c' h' ->
  oo = o ++ o' -> cc = c ++ c' -> hh = h ++ h' ->
  runs (bind m k) w b oo cc hh.
Proof.
  unfold runs, bind. intros -> -> -> -> ->. by rewrite effect_effect.
Qed.

Lemma runs_environ_get name d w :
  runs (environ_get name d) w (default d (environ w !! name)) [] [] [].
Proof. unfold runs, environ_get. rewrite effect_nil. by destruct (environ w !! name). Qed.

Lemma runs_path_exists p w :
  runs (path_exists p) w (bool_decide (is_Some (files w !! p))) [] [CallExists p] [].
Proof. unfold runs, path_exists, log_fs, effect. by rewrite !app_nil_r. Qed.

Lemma runs_getsize p w data :
  files w !! p = Some data ->
  runs (getsize p) w (length data) [] [CallGetsize p] [].
Proof. intros Hf. unfold runs, getsize, log_fs, effect. rewrite Hf. by rewrite !app_nil_r. Qed.

Lemma runs_open_rb p w data :
  files w !! p = Some data ->
  runs (open_ p "rb") w (mkFile p "rb") [] [CallOpen p "rb"] [].
Proof.
  intros Hf. unfold runs, open_, log_fs, effect. simpl. rewrite Hf. by rewrite !app_nil_r.
Qed.

Lemma runs_read_rb p w data :
  files w !! p = Some data ->
  runs (read (mkFile p "rb")) w data [] [CallRead p] [].
Proof.
  intros Hf. unfold runs, read, log_fs, effect. simpl. rewrite Hf. by rewrite !app_nil_r.
Qed.


Lemma search_tail_emits data n (fm fe : bool) :
  emits
    (when (negb fm)
       (print "❌ Mystery hash NOT found in the segment file" ;;
        print "   This suggests it's being generated incorrectly, not read from storage") ;;
     when (negb fe)
       (print "❌ Expected hash for height 2000 NOT found" ;;
        print "   The file may not contain headers up to 2000 yet") ;;
     print (nl +:+ "File analysis:") ;;
     print ("- File size: " +:+ pretty (length data) +:+ " bytes") ;;
     print ("- Complete headers: " +:+ pretty n) ;;
     print ("- Leftover bytes: " +:+ pretty (length data mod 80)) ;;
     print (nl +:+ "Last 5 headers in file:") ;;
     SearchMysteryHash.last_headers data 80 n)
    tt
    ((if fm then []
      else [ "❌ Mystery hash NOT found in the segment file";
             "   This suggests it's being generated incorrectly, not read from storage" ]) ++
     (if fe then []
      else [ "❌ Expected hash for height 2000 NOT found";
             "   The file may not contain headers up to 2000 yet" ]) ++
     [ nl +:+ "File analysis:";
       "- File size: " +:+ pretty (length data) +:+ " bytes";
       "- Complete headers: " +:+ pretty n;
       "- Leftover bytes: " +:+ pretty (length data mod 80);
       nl +:+ "Last 5 headers in file:" ] ++
     map (height_line data) (last_range n))
    (hashed_at data (last_range n)).
Proof.
  destruct fm, fe; unfold when; simpl negb;
    (eapply emits_eq'; [emits_run | ..]); reflexivity.
Qed.

Lemma search_analyse_runs p w data :
  files w !! p = Some data ->
  runs (SearchMysteryHash.analyse p) w tt (search_analysis data)
       [CallOpen p "rb"; CallRead p]
       (hashed_at data (search_hashed_heights data)).
Proof.
  intros Hf. unfold SearchMysteryHash.analyse.
  eapply runs_seq; [by eapply runs_open_rb | | | reflexivity | ]; cycle 1.
  { rewrite app_nil_l. reflexivity. }
  { rewrite app_nil_l. reflexivity. }
  eapply runs_seq; [by eapply runs_read_rb | | | reflexivity | ]; cycle 1.
  { rewrite app_nil_l. reflexivity. }
  { rewrite app_nil_l. reflexivity. }
  apply runs_emits. cbv zeta.
  unfold search_analysis, search_hashed_heights. cbv zeta.
  set (n := length data / 80).
  rewrite hashed_at_app.
  eapply emits_eq'.
  - eapply emits_seq; [apply emits_print | | reflexivity | reflexivity].
    eapply emits_seq; [apply emits_print | | reflexivity | reflexivity].
    eapply emits_seq; [apply search_loop_emits | | reflexivity | reflexivity].
    apply search_tail_emits.
  - reflexivity.
  - cbn [fst snd]. rewrite !orb_false_r. reflexivity.
  - reflexivity.
Qed.

Lemma runs_eq {A} (m : M A) w a o c h o' c' h' :
  runs m w a o c h -> o = o' -> c = c' -> h = h' -> runs m w a o' c' h'.
Proof. by intros ? <- <- <-. Qed.


Lemma runs_path_exists_some p w data :
  files w !! p = Some data -> runs (path_exists p) w true [] [CallExists p] [].
Proof.
  intros Hf. unfold runs, path_exists, log_fs, effect. rewrite Hf, !app_nil_r.
  by rewrite bool_decide_eq_true_2.
Qed.

Lemma runs_path_exists_none p w :
  files w !! p = None -> runs (path_exists p) w false [] [CallExists p] [].
Proof.
  intros Hf. unfold runs, path_exists, log_fs, effect. rewrite Hf, !app_nil_r.
  rewrite bool_decide_eq_false_2; [done | by intros [? ?]].
Qed.

Lemma environ_effect w o c h : environ (effect w o c h) = environ w.
Proof. reflexivity. Qed.

Ltac fold_segment_path w :=
  cbv beta iota zeta; rewrite ?environ_effect;
  change (os_path_join (default "." (environ w !! "HOME")) segment_rel)
    with (segment_path (environ w !! "HOME")).

Lemma search_main_runs w :
  let home := environ w !! "HOME" in
  let file := files w !! segment_path home in
  runs SearchMysteryHash.main w tt
       (search_output home file) (search_calls home file) (search_hashed file).
Proof.
  intros home file. unfold SearchMysteryHash.main.
  destruct file as [data|] eqn:Hfile; subst file home.
  - eapply runs_eq.
    + eapply runs_seq; [apply runs_emits, emits_print | | reflexivity..].
      eapply runs_seq; [apply runs_emits, emits_print | | reflexivity..].
      eapply runs_seq; [apply runs_environ_get | | reflexivity..].
      fold_segment_path w.
      eapply runs_seq; [eapply runs_path_exists_some; exact Hfile | | reflexivity..].
      cbv beta iota zeta. apply search_analyse_runs. exact Hfile.
    + unfold search_output, search_banner. cbn [app]. reflexivity.
    + unfold search_calls. reflexivity.
    + unfold search_hashed. reflexivity.
  - eapply runs_eq.
    + eapply runs_seq; [apply runs_emits, emits_print | | reflexivity..].
      eapply runs_seq; [apply runs_emits, emits_print | | reflexivity..].
      eapply runs_seq; [apply runs_environ_get | | reflexivity..].
      fold_segment_path w.
      eapply runs_seq; [eapply runs_path_exists_none; exact Hfile | | reflexivity..].
      cbv beta iota zeta. apply runs_emits, emits_print.
    + unfold search_output, search_banner. cbn [app]. reflexivity.
    + unfold search_calls. reflexivity.
    + unfold search_hashed. reflexivity.
Qed.

Lemma scan_body_emits data i :
  emits (TestMysteryHash.scan_body data 80 i tt) tt
        (scan_lines data i)
        (if scan_guard data i then [record data i; sha256 (record data i)] else []).
Proof.
  unfold TestMysteryHash.scan_body, scan_lines. fold (scan_guard data i).
  destruct (scan_guard data i); [|apply emits_ret].
  cbv zeta.
  eapply emits_sha_bind; [reflexivity|].
  eapply emits_sha_bind; [reflexivity|].
  change (hex (rev (sha256 (sha256 (slice (i * 80) ((i + 1) * 80) data)))))
    with (display_hash (record data i)).
  fold (is_mystery data i) (is_expected data i).
  destruct (is_mystery data i), (is_expected data i);
    (eapply emits_eq'; [emits_run | ..]); reflexivity.
Qed.

Lemma scan_loop_emits data l :
  emits (for_ l (TestMysteryHash.scan_body data 80) tt) tt
        (flat_map (scan_lines data) l)
        (hashed_at data (filter (fun i => scan_guard data i = true) l)).
Proof.
  induction l as [|i l IH]; simpl for_.
  - apply emits_ret.
  - eapply emits_eq'.
    + eapply emits_seq; [apply scan_body_emits | apply IH | | ]; reflexivity.
    + reflexivity.
    + reflexivity.
    + rewrite filter_cons. destruct (scan_guard data i) eqn:E.
      * rewrite decide_True by done. reflexivity.
      * rewrite decide_False by done. reflexivity.
Qed.

Lemma test_analyse_runs p w data :
  files w !! p = Some data ->
  runs (TestMysteryHash.analyse p) w tt (test_analysis p data)
       [CallGetsize p; CallOpen p "rb"; CallRead p]
       (hashed_at data (test_hashed_heights data)).
Proof.
  intros Hf. unfold TestMysteryHash.analyse.
  eapply runs_eq.
  - eapply runs_seq; [apply runs_emits, emits_print | | reflexivity..].
    eapply runs_seq; [eapply runs_getsize; exact Hf | | reflexivity..].
    eapply runs_seq; [apply runs_emits, emits_print | | reflexivity..].
    cbv zeta.
    eapply runs_seq; [apply runs_emits, emits_print | | reflexivity..].
    eapply runs_seq; [eapply runs_open_rb; exact Hf | | reflexivity..].
    eapply runs_seq; [eapply runs_read_rb; exact Hf | | reflexivity..].
    apply runs_emits.
    eapply emits_seq; [apply emits_print | | reflexivity..].
    eapply emits_seq; [apply scan_loop_emits | | reflexivity..].
    emits_run.
  - unfold test_analysis, test_head, recommendations. rewrite !app_nil_l.
    cbn [app]. reflexivity.
  - reflexivity.
  - unfold test_hashed_heights. rewrite !app_nil_l, app_nil_r. reflexivity.
Qed.

Lemma test_main_runs w :
  let home := environ w !! "HOME" in
  let file := files w !! segment_path home in
  runs TestMysteryHash.main w tt
       (test_output home file) (test_calls home file) (test_hashed file).
Proof.
  intros home file. unfold TestMysteryHash.main.
  destruct file as [data|] eqn:Hfile; subst file home.
  - eapply runs_eq.
    + do 5 (eapply runs_seq; [apply runs_emits, emits_print | | reflexivity..]).
      eapply runs_seq; [apply runs_environ_get | | reflexivity..].
      fold_segment_path w.
      eapply runs_seq; [eapply runs_path_exists_some; exact Hfile | | reflexivity..].
      cbv beta iota zeta. apply test_analyse_runs. exact Hfile.
    + unfold test_output, test_banner. cbn [app]. reflexivity.
    + unfold test_calls. reflexivity.
    + unfold test_hashed. reflexivity.
  - eapply runs_eq.
    + do 5 (eapply runs_seq; [apply runs_emits, emits_print | | reflexivity..]).
      eapply runs_seq; [apply runs_environ_get | | reflexivity..].
      fold_segment_path w.
      eapply runs_seq; [eapply runs_path_exists_none; exact Hfile | | reflexivity..].
      cbv beta iota zeta.
      eapply runs_seq; [apply runs_emits, emits_print | | reflexivity..].
      apply runs_emits, emits_print.
    + unfold test_output, test_banner. cbn [app]. reflexivity.
    + unfold test_calls. reflexivity.
    + unfold test_hashed. reflexivity.
Qed.
End Refinement.

(** ** The scripts only read *)

(** A sanity check of the model: opening for writing does change the
    file system, so leaving it unchanged is a property of the modes the
    scripts use and not of the model. *)
Example open_wb_truncates :
  files (snd (open_ "seg" "wb" (mkWorld ∅ {["seg" := [x01]]} [] [] [])))
        !! "seg" = Some [].
Proof. reflexivity. Qed.

Section ReadOnly.
Context `{Hashlib}.

(** C7. Either script, run in any world, ends normally and leaves every
    file as it was (same bytes, hence the same size) and the environment
    untouched; the only file-system calls it adds are existence and size
    queries, opens in mode 'rb' and reads; and the count it derives from
    the segment is [file_size / 80]. *)
Theorem scripts_are_read_only (w : World) :
  let ws := SearchMysteryHash.main w in
  let wt := TestMysteryHash.main w in
  (fst ws = Ok tt /\ files (snd ws) = files w /\ environ (snd ws) = environ w) /\
  (fst wt = Ok tt /\ files (snd wt) = files w /\ environ (snd wt) = environ w) /\
  (exists calls, fs_trace (snd ws) = fs_trace w ++ calls /\
                 Forall opens_read_only calls) /\
  (exists calls, fs_trace (snd wt) = fs_trace w ++ calls /\
                 Forall opens_read_only calls) /\
  (forall data,
     files w !! segment_path (environ w !! "HOME") = Some data ->
     In ("Total headers in file: " +:+ pretty (length data / 80))
        (stdout (snd ws))).
Proof.
  intros ws wt. subst ws wt.
  pose proof (search_main_runs w) as Hs. pose proof (test_main_runs w) as Ht.
  cbv zeta in Hs, Ht. unfold runs in Hs, Ht. rewrite Hs, Ht. cbn [fst snd].
  repeat split.
  - eexists; split; [reflexivity|].
    unfold search_calls. destruct (files w !! _); repeat constructor.
  - eexists; split; [reflexivity|].
    unfold test_calls. destruct (files w !! _); repeat constructor.
  - intros data Hf. rewrite Hf. unfold effect, search_output, search_analysis.
    cbn [stdout]. apply in_or_app. right.
    unfold search_banner. cbn [app]. right. right. left. reflexivity.
Qed.

End ReadOnly.

(** ** Which records are hashed *)

Lemma in_range a b i : In i (range a b) <-> a <= i < b.
Proof. unfold range. rewrite in_seq. lia. Qed.

Lemma record_length (data : list byte) i :
  (i + 1) * 80 <= length data -> length (record data i) = 80.
Proof.
  intros Hi. unfold record, slice. rewrite length_take, length_drop. lia.
Qed.

Lemma record_ignores_leftover (data : list byte) i :
  i < length data / 80 ->
  record (take (length data / 80 * 80) data) i = record data i.
Proof.
  intros Hi. unfold record, slice.
  replace ((i + 1) * 80 - i * 80) with 80 by lia.
  rewrite !take_drop_commute, take_take. do 2 f_equal. lia.
Qed.

Lemma complete_index (data : list byte) i :
  i < length data / 80 <-> (i + 1) * 80 <= length data.
Proof.
  pose proof (Nat.div_mod_eq (length data) 80).
  pose proof (Nat.mod_upper_bound (length data) 80).
  split; intros; nia.
Qed.

Section Hashed.
Context `{Hashlib}.

Lemma search_hashed_heights_complete data :
  Forall (fun i => i < length data / 80) (search_hashed_heights data).
Proof.
  unfold search_hashed_heights. cbv zeta. set (n := length data / 80).
  apply Forall_forall. intros i Hi. apply list_elem_of_In in Hi.
  apply in_app_iff in Hi as [Hi | Hi].
  - apply in_flat_map in Hi as (j & Hj & Hi). apply in_range in Hj.
    unfold search_heights in Hi. destruct Hi as [<- | Hi]; [lia|].
    destruct (is_mystery data j); [|contradiction].
    unfold surrounding_range in Hi. apply in_range in Hi. lia.
  - unfold last_range in Hi. apply in_range in Hi. lia.
Qed.

Lemma test_hashed_heights_guarded data :
  Forall (fun i => 1998 <= i < 2003 /\ i * 80 + 80 <= length data)
         (test_hashed_heights data).
Proof.
  unfold test_hashed_heights. apply Forall_forall. intros i Hi.
  apply list_elem_of_filter in Hi as [Hg Hi]. apply list_elem_of_In, in_range in Hi.
  unfold scan_guard in Hg. apply bool_decide_eq_true_1 in Hg. lia.
Qed.

(** C8. With the segment file holding [data], the arguments either
    script hands to the digest are, in order, the slice
    [data[i*80:(i+1)*80]] followed by its digest, for heights [i] drawn
    from a list of complete records only: below [len(data) // 80] in the
    search script, and among 1998..2002 under the guard
    [i*80 + 80 <= len(data)] in the test script.  Each such slice has
    exactly 80 bytes and is unchanged when the [len(data) % 80] leftover
    bytes are cut off the file. *)
Theorem only_complete_records_are_hashed (w : World) (data : list byte) :
  files w !! os_path_join (default "." (environ w !! "HOME")) segment_rel
    = Some data ->
  let hashed heights :=
    flat_map (fun i => [slice (i * 80) ((i + 1) * 80) data;
                        sha256 (slice (i * 80) ((i + 1) * 80) data)])
             heights in
  (exists heights,
     sha_trace (snd (SearchMysteryHash.main w)) = sha_trace w ++ hashed heights /\
     Forall (fun i => i < length data / 80) heights) /\
  (exists heights,
     sha_trace (snd (TestMysteryHash.main w)) = sha_trace w ++ hashed heights /\
     Forall (fun i => 1998 <= i < 2003 /\ i * 80 + 80 <= length data) heights) /\
  (forall i,
     (i < length data / 80 <-> i * 80 + 80 <= length data) /\
     (i < length data / 80 ->
      length (slice (i * 80) ((i + 1) * 80) data) = 80 /\
      slice (i * 80) ((i + 1) * 80) (take (length data / 80 * 80) data)
        = slice (i * 80) ((i + 1) * 80) data)).
Proof.
  intros Hfile hashed.
  pose proof (search_main_runs w) as Hs. pose proof (test_main_runs w) as Ht.
  cbv zeta in Hs, Ht. unfold runs, segment_path in Hs, Ht.
  rewrite Hfile in Hs, Ht. rewrite Hs, Ht. cbn [snd sha_trace effect].
  split; [|split].
  - exists (search_hashed_heights data). split; [reflexivity|].
    apply search_hashed_heights_complete.
  - exists (test_hashed_heights data). split; [reflexivity|].
    apply test_hashed_heights_guarded.
  - intros i. split.
    + rewrite complete_index. lia.
    + intros Hi. split.
      * apply record_length, complete_index, Hi.
      * apply record_ignores_leftover, Hi.
Qed.

End Hashed.

(** Known answers: the digest agrees with hashlib on the empty string and
    on "abc", and the display hash of the demo header is the familiar
    one. *)
Example sha256_empty :
  hex (SHA256.sha256 []) =
  "e3b0c44298fc1c149afbf4c8996fb92427ae41e4649b934ca495991b7852b855".
Proof. vm_compute. reflexivity. Qed.

Example sha256_abc :
  hex (SHA256.sha256 [x61; x62; x63]) =
  "ba7816bf8f01cfea414140de5dae2223b00361a396177a9cb410ff61f20015ad".
Proof. vm_compute. reflexivity. Qed.

Example demo_header_hash :
  length Demo.header = 80 /\
  @display_hash fips180 Demo.header =
  "000000000019d6689c085ae165831e934ff763ae46a2a6c172b3f1b60a8ce26f".
Proof. vm_compute. split; reflexivity. Qed.

Example demo_segment_found :
  files Demo.world !! segment_path (environ Demo.world !! "HOME")
    = Some Demo.segment /\
  files Demo.busy_world !! segment_path (environ Demo.busy_world !! "HOME")
    = Some Demo.segment.
Proof. vm_compute. split; reflexivity. Qed.

(** Witness of C8 on the demo world. *)
Lemma only_complete_records_are_hashed_witness :
  files Demo.world
    !! os_path_join (default "." (environ Demo.world !! "HOME")) segment_rel
    = Some Demo.segment /\
  exists heights,
    sha_trace (snd (@SearchMysteryHash.main fips180 Demo.world)) =
      sha_trace Demo.world ++
      flat_map (fun i => [slice (i * 80) ((i + 1) * 80) Demo.segment;
                          SHA256.sha256
                            (slice (i * 80) ((i + 1) * 80) Demo.segment)])
               heights /\
    Forall (fun i => i < length Demo.segment / 80) heights.
Proof.
  split; [vm_compute; reflexivity|].
  apply (@only_complete_records_are_hashed fips180 Demo.world Demo.segment).
  vm_compute; reflexivity.
Defined.

(** ** What a run depends on *)


Section Blind.
Context `{Hashlib}.
Variables (home path : string).












End Blind.



Section Determinism.
Context `{Hashlib}.
Variable encodes : string -> bool.






End Determinism.

(** The scripts as embedded first are these scripts on a standard output
    that can encode every line. *)
Lemma print_to_capable (encodes : string -> bool) :
  (forall s, encodes s = true) -> print_to encodes = print.
Proof.
  intros Hall. apply functional_extensionality. intros s.
  apply functional_extensionality. intros w. unfold print_to.
  by rewrite Hall.
Qed.

Lemma capable_stdout_runs `{Hashlib} (encodes : string -> bool) :
  (forall s, encodes s = true) ->
  WithPrint.search_main (print_to encodes) = SearchMysteryHash.main /\
  WithPrint.test_main (print_to encodes) = TestMysteryHash.main.
Proof. intros Hall. rewrite (print_to_capable encodes Hall). split; reflexivity. Qed.



(** ** Strings: hex digits and printed lines *)

Lemma unhex_hex_byte (b : byte) :
  let n := Byte.to_N b in
  unhex_digit (hex_digit (n / 16)) = Some (n / 16)%N /\
  unhex_digit (hex_digit (n mod 16)) = Some (n mod 16)%N /\
  Byte.of_N (16 * (n / 16) + n mod 16) = Some b.
Proof. destruct b; vm_compute; repeat split. Qed.

Lemma unhex_hex (bs : list byte) : unhex (hex bs) = Some bs.
Proof.
  induction bs as [|b bs IH]; [reflexivity|].
  destruct (unhex_hex_byte b) as (H1 & H2 & H3).
  cbn [hex unhex]. cbv zeta in H1, H2, H3. rewrite H1, H2, IH, H3. reflexivity.
Qed.

Lemma hex_inj (bs bs' : list byte) : hex bs = hex bs' -> bs = bs'.
Proof.
  intros Heq. apply (f_equal unhex) in Heq. rewrite !unhex_hex in Heq.
  congruence.
Qed.

Lemma list_ascii_of_string_app (s t : string) :
  list_ascii_of_string (s +:+ t) =
  list_ascii_of_string s ++ list_ascii_of_string t.
Proof. induction s as [|c s IH]; simpl; [reflexivity | by rewrite IH]. Qed.

Lemma string_app_inv_tail (s s' t : string) : s +:+ t = s' +:+ t -> s = s'.
Proof.
  intros Heq. apply (f_equal list_ascii_of_string) in Heq.
  rewrite !list_ascii_of_string_app in Heq. apply app_inv_tail in Heq.
  apply (f_equal string_of_list_ascii) in Heq.
  by rewrite !string_of_list_ascii_of_string in Heq.
Qed.

(** The lines that announce a match name their height. *)
Lemma found_mystery_line_inj i j :
  found_mystery_line i = found_mystery_line j -> i = j.
Proof.
  unfold found_mystery_line. intros Heq. apply (inj _) in Heq.
  apply string_app_inv_tail in Heq. by apply (inj pretty).
Qed.

Lemma found_expected_line_inj i j :
  found_expected_line i = found_expected_line j -> i = j.
Proof.
  unfold found_expected_line. intros Heq. apply (inj _) in Heq.
  by apply (inj pretty).
Qed.

Lemma scan_found_line_inj i j : scan_found_line i = scan_found_line j -> i = j.
Proof.
  unfold scan_found_line. intros Heq. apply (inj _) in Heq.
  apply string_app_inv_tail in Heq. by apply (inj pretty).
Qed.

(** Telling printed lines apart by their first characters. *)
Ltac other_line :=
  match goal with
  | Heq : _ = _ |- _ =>
      solve [ unfold found_mystery_line, found_expected_line, scan_found_line,
                surrounding_line, height_line, nl in Heq;
              cbn [String.append] in Heq; discriminate Heq ]
  end.

Section Lines.
Context `{Hashlib}.

Lemma in_search_lines_mystery data n i j :
  In (found_mystery_line i) (search_lines data n j) <->
  i = j /\ is_mystery data j = true.
Proof.
  unfold search_lines. split.
  - intros Hin. apply in_app_iff in Hin as [Hin | Hin].
    + destruct (is_mystery data j); [|contradiction].
      cbn [app In] in Hin. destruct Hin as [Heq | [Heq | Hin]].
      * split; [|reflexivity]. symmetry. by apply found_mystery_line_inj.
      * other_line.
      * apply in_app_or in Hin. destruct Hin as [Hin | Hin].
        -- apply in_map_iff in Hin as (k & Heq & _). other_line.
        -- destruct Hin as [Heq | []]. other_line.
    + destruct (is_expected data j); [|contradiction].
      destruct Hin as [Heq | []]. other_line.
  - intros [-> Hm]. rewrite Hm. apply in_or_app. left. left. reflexivity.
Qed.

Lemma in_search_lines_expected data n i j :
  In (found_expected_line i) (search_lines data n j) <->
  i = j /\ is_expected data j = true.
Proof.
  unfold search_lines. split.
  - intros Hin. apply in_app_iff in Hin as [Hin | Hin].
    + destruct (is_mystery data j); [|contradiction].
      cbn [app In] in Hin. destruct Hin as [Heq | [Heq | Hin]]; [other_line..|].
      apply in_app_or in Hin. destruct Hin as [Hin | Hin].
      * apply in_map_iff in Hin as (k & Heq & _). other_line.
      * destruct Hin as [Heq | []]. other_line.
    + destruct (is_expected data j); [|contradiction].
      destruct Hin as [Heq | []]. split; [|reflexivity].
      symmetry. by apply found_expected_line_inj.
  - intros [-> Hm]. rewrite Hm. apply in_or_app. right. left. reflexivity.
Qed.

(** A line of the search script's output that is not printed inside the
    search loop is neither of the two match announcements. *)
Lemma search_frame_lines data (line : string) :
  (exists i, line = found_mystery_line i \/ line = found_expected_line i) ->
  In line (search_banner ++ search_analysis data) ->
  In line (flat_map (search_lines data (length data / 80))
                    (range 0 (length data / 80))).
Proof.
  intros (i & Hline) Hin. unfold search_banner, search_analysis in Hin.
  cbv zeta in Hin. cbn [app In] in Hin.
  destruct Hin as [Heq | [Heq | [Heq | [Heq | Hin]]]];
    [destruct Hline as [-> | ->]; other_line..|].
  apply in_app_or in Hin. destruct Hin as [Hin | Hin]; [exact Hin|].
  exfalso.
  apply in_app_or in Hin. destruct Hin as [Hin | Hin].
  { destruct (existsb _ _); [contradiction|].
    destruct Hin as [Heq | [Heq | []]]; destruct Hline as [-> | ->]; other_line. }
  apply in_app_or in Hin. destruct Hin as [Hin | Hin].
  { destruct (existsb _ _); [contradiction|].
    destruct Hin as [Heq | [Heq | []]]; destruct Hline as [-> | ->]; other_line. }
  cbn [app In] in Hin.
  destruct Hin as [Heq | [Heq | [Heq | [Heq | [Heq | Hin]]]]];
    [destruct Hline as [-> | ->]; other_line..|].
  apply in_map_iff in Hin as (k & Heq & _).
  destruct Hline as [-> | ->]; other_line.
Qed.

Lemma in_search_output_mystery data i :
  In (found_mystery_line i) (search_banner ++ search_analysis data) <->
  i < length data / 80 /\ is_mystery data i = true.
Proof.
  split.
  - intros Hin. apply search_frame_lines in Hin; [|eauto].
    apply in_flat_map in Hin as (j & Hj & Hin).
    apply in_search_lines_mystery in Hin as [-> Hm]. apply in_range in Hj.
    split; [lia | exact Hm].
  - intros [Hi Hm]. apply in_or_app. right. unfold search_analysis. cbv zeta.
    cbn [app]. right. right. apply in_or_app. left.
    apply in_flat_map. exists i. split; [apply in_range; lia|].
    by apply in_search_lines_mystery.
Qed.

Lemma in_search_output_expected data i :
  In (found_expected_line i) (search_banner ++ search_analysis data) <->
  i < length data / 80 /\ is_expected data i = true.
Proof.
  split.
  - intros Hin. apply search_frame_lines in Hin; [|eauto].
    apply in_flat_map in Hin as (j & Hj & Hin).
    apply in_search_lines_expected in Hin as [-> Hm]. apply in_range in Hj.
    split; [lia | exact Hm].
  - intros [Hi Hm]. apply in_or_app. right. unfold search_analysis. cbv zeta.
    cbn [app]. right. right. apply in_or_app. left.
    apply in_flat_map. exists i. split; [apply in_range; lia|].
    by apply in_search_lines_expected.
Qed.

(** Around a match at height [m] the listing shows every complete record
    within two heights of [m]. *)
Lemma in_search_output_surrounding data m j :
  m < length data / 80 -> is_mystery data m = true ->
  j < length data / 80 -> m <= j + 2 -> j <= m + 2 ->
  In (surrounding_line data m j) (search_banner ++ search_analysis data).
Proof.
  intros Hm Hmys Hj Hlo Hhi. apply in_or_app. right.
  unfold search_analysis. cbv zeta. cbn [app]. right. right.
  apply in_or_app. left. apply in_flat_map. exists m.
  split; [apply in_range; lia|]. unfold search_lines. rewrite Hmys.
  apply in_or_app. left. cbn [app]. right. right. apply in_or_app. left.
  apply in_map. unfold surrounding_range. apply in_range. lia.
Qed.

Lemma in_search_output_last data i :
  i < length data / 80 -> length data / 80 <= i + 5 ->
  In (height_line data i) (search_banner ++ search_analysis data).
Proof.
  intros Hi Hlast. apply in_or_app. right.
  unfold search_analysis. cbv zeta. cbn [app]. right. right.
  apply in_or_app. right. apply in_or_app. right. apply in_or_app. right.
  cbn [app]. do 5 right. apply in_map. unfold last_range. apply in_range. lia.
Qed.
End Lines.

Section ScanLines.
Context `{Hashlib}.

Lemma in_scan_lines_found data i j :
  In (scan_found_line i) (scan_lines data j) <->
  i = j /\ scan_guard data j = true /\ is_mystery data j = true.
Proof.
  unfold scan_lines. split.
  - intros Hin. destruct (scan_guard data j); [|contradiction].
    destruct Hin as [Heq | Hin]; [other_line|].
    destruct (is_mystery data j).
    + destruct Hin as [Heq | []]. apply scan_found_line_inj in Heq. auto.
    + destruct (is_expected data j); [|contradiction].
      destruct Hin as [Heq | []]. other_line.
  - intros (-> & -> & ->). right. left. reflexivity.
Qed.

(** The lines the test script prints outside its scan loop do not
    announce a match. *)
Lemma test_frame_lines path data i :
  ~ In (scan_found_line i) test_banner /\
  ~ In (scan_found_line i) (test_head path data) /\
  ~ In (scan_found_line i) recommendations.
Proof.
  split; [|split]; intros Hin.
  - unfold test_banner in Hin. cbn [In] in Hin.
    repeat (destruct Hin as [Heq | Hin]; [other_line|]). contradiction.
  - unfold test_head in Hin. cbn [In] in Hin.
    repeat (destruct Hin as [Heq | Hin]; [other_line|]). contradiction.
  - unfold recommendations in Hin. cbn [In] in Hin.
    repeat (destruct Hin as [Heq | Hin]; [other_line|]). contradiction.
Qed.

Lemma in_test_output_found path data i :
  In (scan_found_line i) (test_banner ++ test_analysis path data) <->
  1998 <= i < 2003 /\ scan_guard data i = true /\ is_mystery data i = true.
Proof.
  destruct (test_frame_lines path data i) as (Hbanner & Hhead & Hrec).
  unfold test_analysis. rewrite !in_app_iff. split.
  - intros [Hin | [Hin | [Hin | Hin]]]; try contradiction.
    apply in_flat_map in Hin as (j & Hj & Hin).
    apply in_scan_lines_found in Hin as (-> & Hg & Hm).
    apply in_range in Hj. auto.
  - intros (Hi & Hg & Hm). right. right. left. apply in_flat_map.
    exists i. split; [by apply in_range|]. by apply in_scan_lines_found.
Qed.

Lemma in_test_output_height path data i :
  1998 <= i < 2003 -> scan_guard data i = true ->
  In (height_line data i) (test_banner ++ test_analysis path data).
Proof.
  intros Hi Hg. unfold test_analysis. rewrite !in_app_iff.
  right. right. left. apply in_flat_map.
  exists i. split; [by apply in_range|]. unfold scan_lines. rewrite Hg.
  left. reflexivity.
Qed.

End ScanLines.

(** ** The header hash *)

Section HeaderHash.
Context `{Hashlib}.

Lemma outputs_with_segment (w : World) (data : list byte) :
  files w !! os_path_join (default "." (environ w !! "HOME")) segment_rel
    = Some data ->
  stdout w = [] ->
  stdout (snd (SearchMysteryHash.main w)) =
    search_banner ++ search_analysis data /\
  stdout (snd (TestMysteryHash.main w)) =
    test_banner ++
    test_analysis (os_path_join (default "." (environ w !! "HOME")) segment_rel)
                  data.
Proof.
  intros Hfile Hout.
  pose proof (search_main_runs w) as Hs. pose proof (test_main_runs w) as Ht.
  cbv zeta in Hs, Ht. unfold runs, segment_path in Hs, Ht.
  rewrite Hfile in Hs, Ht. rewrite Hs, Ht. cbn [snd stdout effect].
  rewrite Hout, !app_nil_l. unfold search_output, test_output, segment_path.
  split; reflexivity.
Qed.

Lemma is_mystery_true data i :
  is_mystery data i = true <->
  hex (rev (sha256 (sha256 (slice (i * 80) ((i + 1) * 80) data)))) = mystery_hash.
Proof. unfold is_mystery. apply bool_decide_eq_true. Qed.

Lemma is_expected_true data i :
  is_expected data i = true <->
  hex (rev (sha256 (sha256 (slice (i * 80) ((i + 1) * 80) data)))) = expected_hash.
Proof. unfold is_expected. apply bool_decide_eq_true. Qed.

Lemma scan_guard_true (data : list byte) i :
  scan_guard data i = true <-> i * 80 + 80 <= length data.
Proof. unfold scan_guard. apply bool_decide_eq_true. Qed.

(** C1. Take the record [b] at a complete height [i] of the segment.  It
    has 80 bytes; the hash the specification calls HeaderCodec.hash is
    the byte-reversed SHA-256 of the SHA-256 of [b], a function of the
    bytes of [b] and nothing else; its lowercase hex rendering [id]
    decodes back to exactly that hash; and [id] is what the scripts
    compare with the hashes seen on the wire: the search script
    announces the mystery (expected) hash at height [i] exactly when
    [id] is the mystery (expected) hash, and for the heights it scans the
    test script prints [id] and announces the mystery hash exactly when
    [id] is it. *)
Theorem header_hash_is_reversed_double_sha256
    (w : World) (data : list byte) (i : nat) :
  files w !! os_path_join (default "." (environ w !! "HOME")) segment_rel
    = Some data ->
  stdout w = [] ->
  i * 80 + 80 <= length data ->
  let b := slice (i * 80) ((i + 1) * 80) data in
  let id := hex (rev (sha256 (sha256 b))) in
  let out_search := stdout (snd (SearchMysteryHash.main w)) in
  let out_test := stdout (snd (TestMysteryHash.main w)) in
  length b = 80 /\
  Store.HeaderCodec_hash b = rev (sha256 (sha256 b)) /\
  unhex id = Some (Store.HeaderCodec_hash b) /\
  (In ("🎯 FOUND MYSTERY HASH at height " +:+ pretty i +:+ "!") out_search
     <-> id = mystery_hash) /\
  (In ("✓ Found expected hash at height " +:+ pretty i) out_search
     <-> id = expected_hash) /\
  (1998 <= i < 2003 ->
   In ("  Height " +:+ pretty i +:+ ": " +:+ id) out_test /\
   (In ("    ^^^ FOUND MYSTERY HASH at height " +:+ pretty i +:+ "!") out_test
      <-> id = mystery_hash)).
Proof.
  intros Hfile Hout Hi b id out_search out_test.
  destruct (outputs_with_segment w data Hfile Hout) as [Hs Ht].
  subst out_search out_test. rewrite Hs, Ht.
  assert (Hn : i < length data / 80) by (apply complete_index; lia).
  split; [apply record_length; lia|].
  split; [reflexivity|].
  split; [apply unhex_hex|].
  split; [|split].
  - change (In (found_mystery_line i) (search_banner ++ search_analysis data)
            <-> id = mystery_hash).
    rewrite in_search_output_mystery, is_mystery_true. tauto.
  - change (In (found_expected_line i) (search_banner ++ search_analysis data)
            <-> id = expected_hash).
    rewrite in_search_output_expected, is_expected_true. tauto.
  - intros Hscan. split.
    + apply (in_test_output_height _ data i Hscan). by apply scan_guard_true.
    + match goal with |- In _ ?l <-> _ =>
        change (In (scan_found_line i) l <-> id = mystery_hash) end.
      rewrite in_test_output_found, is_mystery_true, scan_guard_true. tauto.
Qed.

(** C9. The search loop, the surrounding-headers listing, the closing
    listing and the test script's scan all derive the same string [id]
    from the record at height [i]: the search loop announces a match at
    [i] exactly when [id] is the mystery hash, and then the listing
    reprints the mystery hash itself at [i], marked; around any match
    at [m] the listing shows [id] for every complete height [i] within
    two of [m]; the closing listing shows [id] for the last five
    heights; and the test script shows [id] for the heights it scans. *)
Theorem hash_computations_agree (w : World) (data : list byte) (i : nat) :
  files w !! os_path_join (default "." (environ w !! "HOME")) segment_rel
    = Some data ->
  stdout w = [] ->
  i * 80 + 80 <= length data ->
  let hash_hex j := hex (rev (sha256 (sha256 (slice (j * 80) ((j + 1) * 80) data)))) in
  let id := hash_hex i in
  let out_search := stdout (snd (SearchMysteryHash.main w)) in
  let out_test := stdout (snd (TestMysteryHash.main w)) in
  (In ("🎯 FOUND MYSTERY HASH at height " +:+ pretty i +:+ "!") out_search ->
   In ("  Height " +:+ pretty i +:+ ": " +:+ mystery_hash +:+ " <-- MYSTERY")
      out_search) /\
  (forall m,
     m * 80 + 80 <= length data -> hash_hex m = mystery_hash ->
     m <= i + 2 -> i <= m + 2 ->
     In ("  Height " +:+ pretty i +:+ ": " +:+ id +:+
         (if bool_decide (i = m) then " <-- MYSTERY" else "")) out_search) /\
  (length data / 80 <= i + 5 ->
   In ("  Height " +:+ pretty i +:+ ": " +:+ id) out_search) /\
  (1998 <= i < 2003 ->
   In ("  Height " +:+ pretty i +:+ ": " +:+ id) out_test).
Proof.
  intros Hfile Hout Hi hash_hex id out_search out_test.
  destruct (outputs_with_segment w data Hfile Hout) as [Hs Ht].
  subst out_search out_test. rewrite Hs, Ht.
  assert (Hn : i < length data / 80) by (apply complete_index; lia).
  assert (Hnear : forall m,
     m * 80 + 80 <= length data -> hash_hex m = mystery_hash ->
     m <= i + 2 -> i <= m + 2 ->
     In (surrounding_line data m i) (search_banner ++ search_analysis data)).
  { intros m Hm Hmys Hlo Hhi. apply in_search_output_surrounding; try lia.
    - apply complete_index; lia.
    - by apply is_mystery_true. }
  split; [|split; [|split]].
  - intros Hfound.
    change (In (found_mystery_line i) (search_banner ++ search_analysis data))
      in Hfound.
    apply in_search_output_mystery in Hfound as [_ Hmys].
    apply is_mystery_true in Hmys.
    specialize (Hnear i Hi Hmys ltac:(lia) ltac:(lia)).
    unfold surrounding_line, display_hash, Store.HeaderCodec_hash, record in Hnear.
    rewrite Hmys in Hnear. rewrite bool_decide_eq_true_2 in Hnear by done.
    exact Hnear.
  - intros m Hm Hmys Hlo Hhi. exact (Hnear m Hm Hmys Hlo Hhi).
  - intros Hlast. by apply (in_search_output_last data i).
  - intros Hscan. apply (in_test_output_height _ data i Hscan).
    by apply scan_guard_true.
Qed.

End HeaderHash.

(** Witness of C1: the record at height 0 of the demo segment. *)
Lemma header_hash_is_reversed_double_sha256_witness :
  (files Demo.world
     !! os_path_join (default "." (environ Demo.world !! "HOME")) segment_rel
     = Some Demo.segment /\
   stdout Demo.world = [] /\
   0 * 80 + 80 <= length Demo.segment) /\
  length (slice (0 * 80) ((0 + 1) * 80) Demo.segment) = 80 /\
  unhex (hex (rev (@sha256 fips180 (@sha256 fips180
           (slice (0 * 80) ((0 + 1) * 80) Demo.segment))))) =
    Some (@Store.HeaderCodec_hash fips180
            (slice (0 * 80) ((0 + 1) * 80) Demo.segment)).
Proof.
  assert (Hfile : files Demo.world
     !! os_path_join (default "." (environ Demo.world !! "HOME")) segment_rel
     = Some Demo.segment) by (vm_compute; reflexivity).
  assert (Hlen : 0 * 80 + 80 <= length Demo.segment)
    by (apply Nat.leb_le; vm_compute; reflexivity).
  split; [split; [exact Hfile | split; [reflexivity | exact Hlen]]|].
  pose proof (@header_hash_is_reversed_double_sha256 fips180 Demo.world
                Demo.segment 0 Hfile eq_refl Hlen) as Hthm.
  cbv zeta in Hthm. destruct Hthm as (Hl & _ & Hu & _).
  split; [exact Hl | exact Hu].
Defined.

(** Witness of C9: the same record, in the closing listing. *)
Lemma hash_computations_agree_witness :
  (files Demo.world
     !! os_path_join (default "." (environ Demo.world !! "HOME")) segment_rel
     = Some Demo.segment /\
   stdout Demo.world = [] /\
   0 * 80 + 80 <= length Demo.segment) /\
  (length Demo.segment / 80 <= 0 + 5 ->
   In ("  Height " +:+ pretty 0 +:+ ": " +:+
       hex (rev (@sha256 fips180 (@sha256 fips180
              (slice (0 * 80) ((0 + 1) * 80) Demo.segment)))))
      (stdout (snd (@SearchMysteryHash.main fips180 Demo.world)))).
Proof.
  assert (Hfile : files Demo.world
     !! os_path_join (default "." (environ Demo.world !! "HOME")) segment_rel
     = Some Demo.segment) by (vm_compute; reflexivity).
  assert (Hlen : 0 * 80 + 80 <= length Demo.segment)
    by (apply Nat.leb_le; vm_compute; reflexivity).
  split; [split; [exact Hfile | split; [reflexivity | exact Hlen]]|].
  pose proof (@hash_computations_agree fips180 Demo.world
                Demo.segment 0 Hfile eq_refl Hlen) as Hthm.
  cbv zeta in Hthm. destruct Hthm as (_ & _ & Hlast & _). exact Hlast.
Defined.

(** The demo run, in full: what the search script prints for the demo
    segment. *)
Example search_demo_output :
  stdout (snd (@SearchMysteryHash.main fips180 Demo.world)) =
  [ "Searching for Mystery Hash in SPV Storage";
    "=========================================" +:+ nl;
    "Total headers in file: 2";
    "Searching for mystery hash..." +:+ nl;
    "❌ Mystery hash NOT found in the segment file";
    "   This suggests it's being generated incorrectly, not read from storage";
    "❌ Expected hash for height 2000 NOT found";
    "   The file may not contain headers up to 2000 yet";
    nl +:+ "File analysis:";
    "- File size: 161 bytes";
    "- Complete headers: 2";
    "- Leftover bytes: 1";
    nl +:+ "Last 5 headers in file:";
    "  Height 0: 000000000019d6689c085ae165831e934ff763ae46a2a6c172b3f1b60a8ce26f";
    "  Height 1: 14508459b221041eab257d2baaa7459775ba748246c8403609eb708f0e57e74b" ].
Proof. vm_compute. reflexivity. Qed.

(** ** The layout of a segment *)




Section RecordRead.
Context `{Hashlib}.


End RecordRead.


(** ** The storage core as specified *)

Import Store.


(** The specification's example: height 5 before height 4 exists. *)
Example advance_skipping_a_height :
  advance 5 (mkIndex 2000 (Some 3)) = (Failed HeightGap, mkIndex 2000 (Some 3)) /\
  advance 4 (mkIndex 2000 (Some 3)) = (Done tt, mkIndex 2000 (Some 4)).
Proof. split; reflexivity. Qed.

Lemma open_all_done cap files segs :
  open_all cap files = Done segs ->
  Forall (fun f => length f mod 80 = 0) files /\
  map content segs = files /\
  Forall (fun s => length (content s) mod 80 = 0) segs.
Proof.
  revert segs. induction files as [|f files IH]; intros segs Hopen.
  - injection Hopen as <-. repeat split; constructor.
  - cbn [open_all] in Hopen. unfold open in Hopen at 1.
    unfold record_size in Hopen.
    destruct (Nat.eqb_spec (length f mod 80) 0) as [Hf|Hf]; [|discriminate].
    destruct (open_all cap files) as [ss|e]; [|discriminate].
    injection Hopen as <-. destruct (IH ss eq_refl) as (H1 & H2 & H3).
    repeat split; [by constructor | by cbn; rewrite H2 | by constructor].
Qed.

Lemma open_all_corrupt cap files file :
  In file files -> length file mod 80 <> 0 ->
  open_all cap files = Failed CorruptSegment.
Proof.
  intros Hin Hbad. induction files as [|f files IH]; [contradiction|].
  cbn [open_all]. unfold open at 1. unfold record_size.
  destruct (Nat.eqb_spec (length f mod 80) 0) as [Hf|Hf]; [|reflexivity].
  destruct Hin as [-> | Hin]; [contradiction|].
  by rewrite (IH Hin).
Qed.

Lemma read_done s offset header :
  read s offset = Done header ->
  offset < record_count s /\ length header = 80 /\
  header = take 80 (drop (offset * 80) (content s)).
Proof.
  unfold read, record_count, record_size.
  destruct (Nat.leb_spec (capacity s) offset) as [Hc|Hc]; [discriminate|].
  destruct (Nat.ltb_spec (length (content s) / 80) (offset + 1)) as [Ho|Ho];
    [discriminate|].
  cbn [orb]. intros Hd. injection Hd as <-.
  pose proof (Nat.div_mod_eq (length (content s)) 80).
  split; [lia|]. split; [|reflexivity].
  rewrite length_take, length_drop. nia.
Qed.

(** C4. [record_count()] of an opened segment is [file_size / 80].
    Opening succeeds exactly on files whose size is a multiple of 80 and
    fails with CorruptSegment on the others.  Store startup opens every
    segment file, so one file of a bad size makes startup itself fail
    with CorruptSegment and no store comes into being; a store that did
    start holds only well-sized segments, and every header it serves
    has 80 bytes. *)
Theorem corrupt_segment_rejected_at_startup (cap : nat) (file : list byte) :
  (forall s, open cap file = Done s ->
             record_count s = length file / 80 /\ length file mod 80 = 0) /\
  (length file mod 80 = 0 -> open cap file = Done (mkSegment cap file)) /\
  (length file mod 80 <> 0 -> open cap file = Failed CorruptSegment) /\
  (forall files persisted_tip,
     In file files -> length file mod 80 <> 0 ->
     startup cap files persisted_tip = Failed CorruptSegment) /\
  (forall files persisted_tip st,
     startup cap files persisted_tip = Done st ->
     map content (segments st) = files /\
     Forall (fun f => length f mod 80 = 0) files /\
     (forall height header,
        get_header st height = Done header -> length header = 80)).
Proof.
  unfold open, record_size.
  destruct (Nat.eqb_spec (length file mod 80) 0) as [Hf|Hf].
  all: split; [intros s Hs; try discriminate|].
  1: injection Hs as <-; by split.
  all: split; [intros; (reflexivity || contradiction)|].
  all: split; [intros; (reflexivity || contradiction)|].
  all: split.
  all: try (intros files tip Hin Hbad; unfold startup;
            by rewrite (open_all_corrupt cap files file Hin Hbad)).
  all: intros files tip st Hst; unfold startup in Hst;
       destruct (open_all cap files) as [segs|e] eqn:Hopen; [|discriminate];
       injection Hst as <-; cbn [segments];
       destruct (open_all_done _ _ _ Hopen) as (H1 & H2 & H3);
       (split; [exact H2|]); (split; [exact H1|]);
       intros height header Hget; unfold get_header in Hget;
       cbn [index segments tip_height] in Hget.
  all: match type of Hget with
       | context [bool_decide ?P] => destruct (bool_decide P)
       end.
  all: repeat match type of Hget with
       | match ?x with _ => _ end = _ => destruct x; try discriminate
       end.
  all: by apply read_done in Hget as (_ & Hl & _).
Qed.

(** ** Appending out of order *)





Example append_in_order :
  fst (append 4 Demo.header Demo.store) = Done 4 /\
  get_header (snd (append 4 Demo.header Demo.store)) 4 = Done Demo.header /\
  get_header Demo.store 4 = Failed HeightNotFound.
Proof. vm_compute. repeat split; reflexivity. Qed.

(** ** The block locator as specified *)

Import BlockLocator.

Lemma heights_from_unfold height step emitted :
  heights_from height step emitted =
  if decide (height = 0) then [height]
  else
    let step' := if 4 <? S emitted then (2 * step)%positive else step in
    height ::
      heights_from
        (if height <? Pos.to_nat step' then 0 else height - Pos.to_nat step')
        step' (S emitted).
Proof.
  simp heights_from. destruct (decide (height = 0)); reflexivity.
Qed.

(** From any height the locator walks strictly down to 0 and stops. *)
Lemma heights_from_shape height :
  forall step emitted,
  exists above,
    heights_from height step emitted = above ++ [0] /\
    hd 0 (above ++ [0]) = height /\
    Forall (fun h => 0 < h <= height) above /\
    StronglySorted gt (above ++ [0]).
Proof.
  induction height as [height IH] using lt_wf_ind. intros step emitted.
  rewrite heights_from_unfold. destruct (decide (height = 0)) as [-> | Hnz].
  - exists []. repeat split; repeat constructor.
  - cbv zeta. set (step' := if 4 <? S emitted then _ else _).
    set (next := if height <? Pos.to_nat step' then 0 else _).
    assert (Hnext : next < height).
    { subst next. destruct (Nat.ltb_spec height (Pos.to_nat step')); lia. }
    destruct (IH next Hnext step' (S emitted)) as (above & -> & Hhd & Hall & Hs).
    exists (height :: above). cbn [app hd]. repeat split.
    + constructor; [lia|]. eapply Forall_impl; [exact Hall|].
      cbn beta. intros; lia.
    + constructor; [exact Hs|]. apply Forall_app. split.
      * eapply Forall_impl; [exact Hall|]. cbn beta. intros; lia.
      * repeat constructor. lia.
Qed.

Lemma strongly_sorted_gt_nodup (l : list nat) : StronglySorted gt l -> NoDup l.
Proof.
  induction 1 as [|a l Hs IH Hall]; constructor; [|exact IH].
  intros Hin. rewrite Forall_forall in Hall. specialize (Hall a Hin). lia.
Qed.

Lemma heights_from_step height step emitted step' d :
  step' = (if 4 <? S emitted then (2 * step)%positive else step) ->
  d = Pos.to_nat step' -> d <= height -> 0 < height ->
  heights_from height step emitted =
  height :: heights_from (height - d) step' (S emitted).
Proof.
  intros -> -> Hd Hpos. rewrite heights_from_unfold.
  destruct (decide (height = 0)) as [Hz|_]; [lia|]. cbv zeta.
  destruct (Nat.ltb_spec height
              (Pos.to_nat (if 4 <? S emitted then (2 * step)%positive else step)));
    [lia | reflexivity].
Qed.

Lemma heights_from_head height step emitted :
  exists below, heights_from height step emitted = height :: below.
Proof.
  rewrite heights_from_unfold. destruct (decide (height = 0)); eauto.
Qed.

(** C3. For tip height 2000 the locator visits exactly the heights
    2000, 1999, 1998, 1997, 1996, 1994, 1990, 1982, 1966, ..., 974, 0.
    For every tip it starts at the tip, steps down by one for the first
    four steps and then by 2, 4, 8, ... (shown for the first eight
    entries of a tip of at least 18), decreases strictly, so no height
    repeats, never goes above the tip (heights are natural numbers, so
    never below 0), and ends at height 0, which occurs exactly once. *)
Theorem locator_heights_back_off_to_genesis :
  heights 2000 =
    [2000; 1999; 1998; 1997; 1996; 1994; 1990; 1982; 1966; 1934; 1870; 1742;
     1486; 974; 0] /\
  forall tip,
    hd_error (heights tip) = Some tip /\
    last (heights tip) = Some 0 /\
    StronglySorted gt (heights tip) /\
    NoDup (heights tip) /\
    count_occ Nat.eq_dec (heights tip) 0 = 1 /\
    Forall (fun h => 0 <= h <= tip) (heights tip) /\
    (18 <= tip ->
     take 8 (heights tip) =
       [tip; tip - 1; tip - 2; tip - 3; tip - 4; tip - 6; tip - 10; tip - 18]).
Proof.
  split; [reflexivity|]. intros tip. unfold heights.
  destruct (heights_from_shape tip 1 0) as (above & Heq & Hhd & Hall & Hs).
  split; [|split; [|split; [|split; [|split; [|split]]]]].
  - rewrite Heq. destruct above; cbn in Hhd |- *; congruence.
  - rewrite Heq. apply last_snoc.
  - rewrite Heq. exact Hs.
  - rewrite Heq. by apply strongly_sorted_gt_nodup.
  - rewrite Heq, count_occ_app. cbn [count_occ].
    destruct (Nat.eq_dec 0 0) as [_|]; [|congruence].
    replace (count_occ Nat.eq_dec above 0) with 0; [reflexivity|].
    symmetry. apply count_occ_not_In. intros Hin.
    rewrite Forall_forall in Hall.
    apply list_elem_of_In, Hall in Hin. lia.
  - rewrite Heq. apply Forall_app. split.
    + eapply Forall_impl; [exact Hall|]. cbn beta. intros; lia.
    + repeat constructor. lia.
  - intros Htip.
    rewrite (heights_from_step tip 1 0 1 1) by first [reflexivity | lia].
    rewrite (heights_from_step (tip - 1) 1 1 1 1) by first [reflexivity | lia].
    rewrite (heights_from_step (tip - 1 - 1) 1 2 1 1)
      by first [reflexivity | lia].
    rewrite (heights_from_step (tip - 1 - 1 - 1) 1 3 1 1)
      by first [reflexivity | lia].
    rewrite (heights_from_step (tip - 1 - 1 - 1 - 1) 1 4 2 2)
      by first [reflexivity | lia].
    rewrite (heights_from_step (tip - 1 - 1 - 1 - 1 - 2) 2 5 4 4)
      by first [reflexivity | lia].
    rewrite (heights_from_step (tip - 1 - 1 - 1 - 1 - 2 - 4) 4 6 8 8)
      by first [reflexivity | lia].
    destruct (heights_from_head (tip - 1 - 1 - 1 - 1 - 2 - 4 - 8) 8 7)
      as [below ->].
    cbn [take]. repeat (apply (f_equal2 (@cons nat)); [lia|]). reflexivity.
Qed.

(** * Further properties of the scripts *)

(** ** What the search script reports when nothing matches *)

Lemma existsb_false {A} (f : A -> bool) (l : list A) :
  existsb f l = false <-> forall x, In x l -> f x = false.
Proof.
  induction l as [|a l IH]; cbn [existsb In].
  - split; [intros _ x [] | reflexivity].
  - rewrite orb_false_iff, IH. split.
    + intros [Ha Hl] x [<- | Hx]; auto.
    + intros Hall. split; [apply Hall; by left | intros x Hx; apply Hall; by right].
Qed.

Section Output.
Context `{Hashlib}.

Lemma search_stdout (w : World) (data : list byte) :
  files w !! os_path_join (default "." (environ w !! "HOME")) segment_rel
    = Some data ->
  stdout (snd (SearchMysteryHash.main w)) =
    stdout w ++ search_banner ++ search_analysis data.
Proof.
  intros Hfile. pose proof (search_main_runs w) as Hs.
  cbv zeta in Hs. unfold runs, segment_path in Hs.
  rewrite Hfile in Hs. rewrite Hs. reflexivity.
Qed.

Lemma test_stdout (w : World) (data : list byte) :
  files w !! os_path_join (default "." (environ w !! "HOME")) segment_rel
    = Some data ->
  stdout (snd (TestMysteryHash.main w)) =
    stdout w ++ test_banner ++
    test_analysis (os_path_join (default "." (environ w !! "HOME")) segment_rel)
                  data.
Proof.
  intros Hfile. pose proof (test_main_runs w) as Ht.
  cbv zeta in Ht. unfold runs, segment_path in Ht.
  rewrite Hfile in Ht. rewrite Ht. reflexivity.
Qed.

(** The two NOT-found lines are printed after the loop only. *)
Lemma not_found_outside_loop data n (line : string) :
  line = "❌ Mystery hash NOT found in the segment file" \/
  line = "❌ Expected hash for height 2000 NOT found" ->
  ~ In line (flat_map (search_lines data n) (range 0 n)).
Proof.
  intros Hline Hin. apply in_flat_map in Hin as (j & _ & Hin).
  unfold search_lines in Hin. apply in_app_or in Hin. destruct Hin as [Hin | Hin].
  - destruct (is_mystery data j); [|contradiction].
    cbn [app In] in Hin. destruct Hin as [Heq | [Heq | Hin]];
      [destruct Hline as [-> | ->]; other_line..|].
    apply in_app_or in Hin. destruct Hin as [Hin | Hin].
    + apply in_map_iff in Hin as (k & Heq & _).
      destruct Hline as [-> | ->]; other_line.
    + destruct Hin as [Heq | []]. destruct Hline as [-> | ->]; other_line.
  - destruct (is_expected data j); [|contradiction].
    destruct Hin as [Heq | []]. destruct Hline as [-> | ->]; other_line.
Qed.

Lemma in_search_output_not_found data :
  (In "❌ Mystery hash NOT found in the segment file"
      (search_banner ++ search_analysis data) <->
   existsb (is_mystery data) (range 0 (length data / 80)) = false) /\
  (In "❌ Expected hash for height 2000 NOT found"
      (search_banner ++ search_analysis data) <->
   existsb (is_expected data) (range 0 (length data / 80)) = false).
Proof.
  unfold search_banner, search_analysis. cbv zeta.
  set (n := length data / 80).
  pose proof (not_found_outside_loop data n) as Hloop.
  rewrite !in_app_iff.
  destruct (existsb (is_mystery data) (range 0 n));
    destruct (existsb (is_expected data) (range 0 n)); cbn [In].
  all: split; (split; [|try discriminate; intros _; tauto]).
  all: intros Hin; try reflexivity; exfalso.
  all: repeat match type of Hin with
         | _ \/ _ => destruct Hin as [Hin | Hin]
         | False => contradiction
         | In _ (flat_map _ _) => apply Hloop in Hin; [contradiction | tauto]
         | In _ (map _ _) => apply in_map_iff in Hin as (k & Hin & _)
         | _ = _ => discriminate Hin || other_line
         end.
Qed.

(** X1. With the segment in place, the search script prints
    "Mystery hash NOT found" exactly when no complete record displays as
    the mystery hash, which is exactly when it announced no match at any
    height: the flag set in the loop is never lost and never set without
    a match.  The same holds for the expected hash and its NOT-found
    line. *)
Theorem not_found_is_reported_exactly_without_a_match
    (w : World) (data : list byte) :
  files w !! os_path_join (default "." (environ w !! "HOME")) segment_rel
    = Some data ->
  stdout w = [] ->
  let n := length data / 80 in
  let hash_hex i :=
    hex (rev (sha256 (sha256 (slice (i * 80) ((i + 1) * 80) data)))) in
  let out := stdout (snd (SearchMysteryHash.main w)) in
  (In "❌ Mystery hash NOT found in the segment file" out <->
     forall i, i < n -> hash_hex i <> mystery_hash) /\
  (In "❌ Mystery hash NOT found in the segment file" out <->
     forall i : nat, ~ In ("🎯 FOUND MYSTERY HASH at height " +:+ pretty i +:+ "!") out) /\
  (In "❌ Expected hash for height 2000 NOT found" out <->
     forall i, i < n -> hash_hex i <> expected_hash) /\
  (In "❌ Expected hash for height 2000 NOT found" out <->
     forall i : nat, ~ In ("✓ Found expected hash at height " +:+ pretty i) out).
Proof.
  intros Hfile Hout n hash_hex out. subst out.
  rewrite (search_stdout w data Hfile), Hout, app_nil_l.
  destruct (in_search_output_not_found data) as [Hm He].
  rewrite Hm, He, !existsb_false. fold n.
  assert (Hmi : forall i, is_mystery data i = false <-> hash_hex i <> mystery_hash).
  { intros i. rewrite <- not_true_iff_false, is_mystery_true. reflexivity. }
  assert (Hei : forall i, is_expected data i = false <-> hash_hex i <> expected_hash).
  { intros i. rewrite <- not_true_iff_false, is_expected_true. reflexivity. }
  repeat split.
  - intros Hall i Hi. apply Hmi, Hall, in_range. lia.
  - intros Hall i Hi. apply Hmi, Hall. apply in_range in Hi. lia.
  - intros Hall i Hin.
    change (In (found_mystery_line i) (search_banner ++ search_analysis data)) in Hin.
    apply in_search_output_mystery in Hin as [Hi Hmys].
    rewrite Hall in Hmys; [discriminate | apply in_range; lia].
  - intros Hall i Hi. apply not_true_iff_false. intros Hmys.
    apply (Hall i).
    change (In (found_mystery_line i) (search_banner ++ search_analysis data)).
    apply in_search_output_mystery. apply in_range in Hi. split; [lia | exact Hmys].
  - intros Hall i Hi. apply Hei, Hall, in_range. lia.
  - intros Hall i Hi. apply Hei, Hall. apply in_range in Hi. lia.
  - intros Hall i Hin.
    change (In (found_expected_line i) (search_banner ++ search_analysis data)) in Hin.
    apply in_search_output_expected in Hin as [Hi Hexp].
    rewrite Hall in Hexp; [discriminate | apply in_range; lia].
  - intros Hall i Hi. apply not_true_iff_false. intros Hexp.
    apply (Hall i).
    change (In (found_expected_line i) (search_banner ++ search_analysis data)).
    apply in_search_output_expected. apply in_range in Hi. split; [lia | exact Hexp].
Qed.

End Output.

(** ** How the search script's report is laid out *)

Lemma existsb_ext_in {A} (f g : A -> bool) (l : list A) :
  (forall x, In x l -> f x = g x) -> existsb f l = existsb g l.
Proof.
  induction l as [|a l IH]; intros Hfg; [reflexivity|]. cbn [existsb].
  rewrite (Hfg a) by (by left). rewrite IH; [reflexivity|].
  intros x Hx. apply Hfg. by right.
Qed.

Lemma flat_map_ext_in {A B} (f g : A -> list B) (l : list A) :
  (forall x, In x l -> f x = g x) -> flat_map f l = flat_map g l.
Proof.
  induction l as [|a l IH]; intros Hfg; [reflexivity|]. cbn [flat_map].
  rewrite (Hfg a) by (by left). rewrite IH; [reflexivity|].
  intros x Hx. apply Hfg. by right.
Qed.

Lemma range_split a i b :
  a <= i < b -> range a b = range a i ++ i :: range (S i) b.
Proof.
  intros Hi. unfold range.
  replace (b - a) with ((i - a) + S (b - S i)) by lia.
  rewrite seq_app. cbn [seq]. do 3 f_equal; lia.
Qed.

Lemma last_range_seq n : last_range n = seq (n - Nat.min 5 n) (Nat.min 5 n).
Proof. unfold last_range, range. f_equal; lia. Qed.

Lemma surrounding_range_seq n i :
  surrounding_range n i = seq (i - 2) (Nat.min n (i + 3) - (i - 2)).
Proof. unfold surrounding_range, range. f_equal. Qed.

Section Layout.
Context `{Hashlib}.

Lemma trimmed_length (data : list byte) :
  length (take (length data / 80 * 80) data) = length data / 80 * 80.
Proof.
  rewrite length_take. pose proof (Nat.div_mod_eq (length data) 80). lia.
Qed.

Lemma trimmed_count (data : list byte) :
  length (take (length data / 80 * 80) data) / 80 = length data / 80 /\
  length (take (length data / 80 * 80) data) mod 80 = 0.
Proof.
  rewrite trimmed_length. split.
  - apply Nat.div_mul. lia.
  - apply Nat.Div0.mod_mul.
Qed.

(** The search loop and the listings see the same records whether or not
    the leftover bytes are there. *)
Lemma trimmed_lines (data : list byte) :
  let n := length data / 80 in
  let trimmed := take (n * 80) data in
  flat_map (search_lines trimmed n) (range 0 n) =
    flat_map (search_lines data n) (range 0 n) /\
  existsb (is_mystery trimmed) (range 0 n) =
    existsb (is_mystery data) (range 0 n) /\
  existsb (is_expected trimmed) (range 0 n) =
    existsb (is_expected data) (range 0 n) /\
  map (height_line trimmed) (last_range n) = map (height_line data) (last_range n).
Proof.
  intros n trimmed.
  assert (Hrec : forall i, i < n -> record trimmed i = record data i)
    by (intros i Hi; by apply record_ignores_leftover).
  assert (Hm : forall i, i < n -> is_mystery trimmed i = is_mystery data i)
    by (intros i Hi; unfold is_mystery; by rewrite Hrec).
  assert (He : forall i, i < n -> is_expected trimmed i = is_expected data i)
    by (intros i Hi; unfold is_expected; by rewrite Hrec).
  split; [|split; [|split]].
  - apply flat_map_ext_in. intros i Hi. apply in_range in Hi.
    unfold search_lines. rewrite Hm, He by lia. f_equal.
    destruct (is_mystery data i); [|reflexivity]. do 2 f_equal.
    apply map_ext_in. intros j Hj. unfold surrounding_range in Hj.
    apply in_range in Hj. unfold surrounding_line. rewrite Hrec by lia.
    reflexivity.
  - apply existsb_ext_in. intros i Hi. apply in_range in Hi. apply Hm. lia.
  - apply existsb_ext_in. intros i Hi. apply in_range in Hi. apply He. lia.
  - apply map_ext_in. intros i Hi. unfold last_range in Hi.
    apply in_range in Hi. unfold height_line. rewrite Hrec by lia. reflexivity.
Qed.

(** The report of a run on a present segment, part by part. *)
Lemma search_parts (w : World) (data : list byte) :
  files w !! os_path_join (default "." (environ w !! "HOME")) segment_rel
    = Some data ->
  stdout (snd (SearchMysteryHash.main w)) =
    stdout w ++ search_head data ++
    flat_map (search_lines data (length data / 80)) (range 0 (length data / 80)) ++
    search_verdict data ++ search_sizes data ++
    [nl +:+ "Last 5 headers in file:"] ++
    map (height_line data) (last_range (length data / 80)).
Proof.
  intros Hfile. rewrite (search_stdout w data Hfile).
  unfold search_analysis, search_head, search_verdict, search_sizes.
  cbv zeta. rewrite <- !app_assoc. cbn [app]. reflexivity.
Qed.

(** X2. Cutting the leftover bytes off the segment changes two lines of
    the search script's report and nothing else: the file size and the
    leftover count.  Everything printed before them (the matches, the
    surrounding listings, the NOT-found lines) and after them (the last
    five headers) is the same, and the three numbers printed satisfy
    [size = complete * 80 + leftover] with [leftover < 80]. *)
Theorem leftover_bytes_only_change_the_size_lines
    (w w' : World) (data : list byte) :
  files w !! os_path_join (default "." (environ w !! "HOME")) segment_rel
    = Some data ->
  files w' !! os_path_join (default "." (environ w' !! "HOME")) segment_rel
    = Some (take (length data / 80 * 80) data) ->
  let n := length data / 80 in
  exists before after,
    stdout (snd (SearchMysteryHash.main w)) =
      stdout w ++ before ++
      [ "- File size: " +:+ pretty (length data) +:+ " bytes";
        "- Complete headers: " +:+ pretty n;
        "- Leftover bytes: " +:+ pretty (length data mod 80) ] ++ after /\
    stdout (snd (SearchMysteryHash.main w')) =
      stdout w' ++ before ++
      [ "- File size: " +:+ pretty (n * 80) +:+ " bytes";
        "- Complete headers: " +:+ pretty n;
        "- Leftover bytes: " +:+ pretty 0 ] ++ after /\
    length data = n * 80 + length data mod 80 /\
    length data mod 80 < 80.
Proof.
  intros Hfile Hfile' n.
  rewrite (search_parts w data Hfile), (search_parts w' _ Hfile').
  destruct (trimmed_count data) as [Hn Hr].
  destruct (trimmed_lines data) as (Hl & Hm & He & Hlast).
  pose proof (trimmed_length data) as Hlen.
  cbv zeta in Hl, Hm, He, Hlast.
  unfold search_head, search_verdict, search_sizes. cbv zeta.
  rewrite Hn, Hr, Hlen, Hl, Hm, He, Hlast. fold n.
  exists (search_head data ++
          flat_map (search_lines data n) (range 0 n) ++
          search_verdict data ++ [nl +:+ "File analysis:"]),
         ((nl +:+ "Last 5 headers in file:") ::
          map (height_line data) (last_range n)).
  unfold search_head, search_verdict. cbv zeta. fold n.
  split; [|split; [|split]].
  - rewrite <- !app_assoc. cbn [app]. reflexivity.
  - rewrite <- !app_assoc. cbn [app]. reflexivity.
  - pose proof (Nat.div_mod_eq (length data) 80). lia.
  - apply Nat.mod_upper_bound. lia.
Qed.

(** X3. The search script's output ends with the heading
    "Last 5 headers in file:" followed by one line per record for the
    last [min(5, n)] heights, [n - min(5, n)] up to [n - 1] in ascending
    order: five lines when the file has at least five records, all [n]
    records when it has fewer, none for a file without a complete
    record. *)
Theorem last_listing_shows_the_final_records (w : World) (data : list byte) :
  files w !! os_path_join (default "." (environ w !! "HOME")) segment_rel
    = Some data ->
  let n := length data / 80 in
  let shown := Nat.min 5 n in
  exists before,
    stdout (snd (SearchMysteryHash.main w)) =
      before ++ [nl +:+ "Last 5 headers in file:"] ++
      map (fun i =>
             "  Height " +:+ pretty i +:+ ": " +:+
             hex (rev (sha256 (sha256 (slice (i * 80) ((i + 1) * 80) data)))))
          (seq (n - shown) shown).
Proof.
  intros Hfile n shown. rewrite (search_parts w data Hfile). fold n.
  rewrite last_range_seq. fold shown.
  exists (stdout w ++ search_head data ++
          flat_map (search_lines data n) (range 0 n) ++
          search_verdict data ++ search_sizes data).
  rewrite <- !app_assoc. reflexivity.
Qed.

(** X4. When the record at a complete height [i] displays as the mystery
    hash, the announcement for [i] is followed at once by the heading
    "Surrounding headers:", one line for each height from [max(0, i-2)]
    up to [min(n, i+3) - 1] in order, the line for [i] itself carrying
    the marker, and an empty line.  The listing always contains [i], has
    at most five lines and never leaves the file. *)
Theorem match_is_listed_with_its_neighbours
    (w : World) (data : list byte) (i : nat) :
  files w !! os_path_join (default "." (environ w !! "HOME")) segment_rel
    = Some data ->
  i * 80 + 80 <= length data ->
  hex (rev (sha256 (sha256 (slice (i * 80) ((i + 1) * 80) data)))) = mystery_hash ->
  let n := length data / 80 in
  let lo := i - 2 in
  let hi := Nat.min n (i + 3) in
  exists before after,
    stdout (snd (SearchMysteryHash.main w)) =
      before ++
      [ "🎯 FOUND MYSTERY HASH at height " +:+ pretty i +:+ "!";
        nl +:+ "Surrounding headers:" ] ++
      map (fun j =>
             "  Height " +:+ pretty j +:+ ": " +:+
             hex (rev (sha256 (sha256 (slice (j * 80) ((j + 1) * 80) data)))) +:+
             (if bool_decide (j = i) then " <-- MYSTERY" else ""))
          (seq lo (hi - lo)) ++
      [""] ++ after /\
    lo <= i < hi /\ hi - lo <= 5 /\ hi <= n.
Proof.
  intros Hfile Hi Hmys n lo hi. rewrite (search_parts w data Hfile). fold n.
  assert (Hn : i < n) by (apply complete_index; lia).
  apply is_mystery_true in Hmys.
  rewrite (range_split 0 i n) by lia. rewrite flat_map_app. cbn [flat_map].
  unfold search_lines at 2. rewrite Hmys, surrounding_range_seq. fold lo hi.
  exists (stdout w ++ search_head data ++
          flat_map (search_lines data n) (range 0 i)),
         ((if is_expected data i then [found_expected_line i] else []) ++
          flat_map (search_lines data n) (range (S i) n) ++
          search_verdict data ++ search_sizes data ++
          [nl +:+ "Last 5 headers in file:"] ++
          map (height_line data) (last_range n)).
  split; [|subst lo hi; lia].
  rewrite <- !app_assoc. cbn [app]. reflexivity.
Qed.

End Layout.

(** ** The window the test script scans *)

Lemma flat_map_guarded {A B} (p : A -> bool) (g : A -> list B) (l : list A) :
  flat_map (fun x => if p x then g x else []) l =
  flat_map g (filter (fun x => p x = true) l).
Proof.
  induction l as [|a l IH]; [reflexivity|]. cbn [flat_map].
  rewrite filter_cons. destruct (p a) eqn:Hp.
  - rewrite decide_True by reflexivity. cbn [flat_map]. by rewrite IH.
  - rewrite decide_False by discriminate. exact IH.
Qed.

(** Of a run of consecutive heights, the complete ones form a prefix. *)
Lemma complete_prefix (data : list byte) (a k : nat) :
  filter (fun i => scan_guard data i = true) (seq a k) =
  seq a (Nat.min (a + k) (length data / 80) - a).
Proof.
  revert a. induction k as [|k IH]; intros a.
  - replace (Nat.min (a + 0) (length data / 80) - a) with 0 by lia. reflexivity.
  - cbn [seq]. rewrite filter_cons, IH.
    destruct (decide (scan_guard data a = true)) as [Hg | Hg].
    + apply scan_guard_true in Hg.
      assert (a < length data / 80) by (apply complete_index; lia).
      replace (Nat.min (a + S k) (length data / 80) - a)
        with (S (Nat.min (S a + k) (length data / 80) - S a)) by lia.
      reflexivity.
    + rewrite scan_guard_true in Hg.
      assert (~ a < length data / 80) by (rewrite complete_index; lia).
      replace (Nat.min (S a + k) (length data / 80) - S a) with 0 by lia.
      replace (Nat.min (a + S k) (length data / 80) - a) with 0 by lia.
      reflexivity.
Qed.

Lemma scanned_heights (data : list byte) :
  filter (fun i => scan_guard data i = true) (range 1998 2003) =
  seq 1998 (Nat.min 2003 (length data / 80) - 1998).
Proof.
  unfold range. change (2003 - 1998) with 5.
  rewrite complete_prefix. change (1998 + 5) with 2003. reflexivity.
Qed.

Section Window.
Context `{Hashlib}.

(** X5. The guard [i*80 + 80 <= len(data)] makes the test script scan a
    prefix of its window: exactly the heights 1998 up to
    [min(2003, len(data) // 80) - 1].  Those are the records it hashes,
    and for each of them, and for no other height, it prints the height
    line followed by at most one marker line.  A file of fewer than
    1999 records is not scanned at all. *)
Theorem scan_covers_the_complete_part_of_its_window
    (w : World) (data : list byte) :
  files w !! os_path_join (default "." (environ w !! "HOME")) segment_rel
    = Some data ->
  let path := os_path_join (default "." (environ w !! "HOME")) segment_rel in
  let hash_hex i :=
    hex (rev (sha256 (sha256 (slice (i * 80) ((i + 1) * 80) data)))) in
  let scanned := seq 1998 (Nat.min 2003 (length data / 80) - 1998) in
  sha_trace (snd (TestMysteryHash.main w)) =
    sha_trace w ++
    flat_map (fun i => [slice (i * 80) ((i + 1) * 80) data;
                        sha256 (slice (i * 80) ((i + 1) * 80) data)]) scanned /\
  stdout (snd (TestMysteryHash.main w)) =
    stdout w ++ test_banner ++ test_head path data ++
    flat_map
      (fun i =>
         ("  Height " +:+ pretty i +:+ ": " +:+ hash_hex i) ::
         (if bool_decide (hash_hex i = mystery_hash) then
            ["    ^^^ FOUND MYSTERY HASH at height " +:+ pretty i +:+ "!"]
          else if bool_decide (hash_hex i = expected_hash) then
            ["    ^^^ This is the expected hash for height 2000"]
          else [])) scanned ++
    recommendations /\
  (length data < 1999 * 80 -> scanned = []).
Proof.
  intros Hfile path hash_hex scanned. split; [|split].
  - pose proof (test_main_runs w) as Ht.
    cbv zeta in Ht. unfold runs, segment_path in Ht.
    rewrite Hfile in Ht. rewrite Ht. cbn [snd sha_trace effect].
    unfold test_hashed, test_hashed_heights. rewrite scanned_heights.
    reflexivity.
  - rewrite (test_stdout w data Hfile). fold path. unfold test_analysis.
    unfold scan_lines. rewrite (flat_map_guarded (scan_guard data)).
    rewrite scanned_heights. reflexivity.
  - intros Hshort. subst scanned.
    assert (length data / 80 <= 1998).
    { pose proof (Nat.div_mod_eq (length data) 80). lia. }
    replace (Nat.min 2003 (length data / 80) - 1998) with 0 by lia. reflexivity.
Qed.

Lemma hashes_differ : mystery_hash <> expected_hash.
Proof. discriminate. Qed.

Lemma in_scan_lines_expected data j :
  In "    ^^^ This is the expected hash for height 2000" (scan_lines data j) <->
  scan_guard data j = true /\ is_expected data j = true.
Proof.
  unfold scan_lines. split.
  - intros Hin. destruct (scan_guard data j); [|contradiction].
    destruct Hin as [Heq | Hin]; [other_line|].
    destruct (is_mystery data j).
    + destruct Hin as [Heq | []]. other_line.
    + destruct (is_expected data j); [auto | contradiction].
  - intros [-> He]. right.
    destruct (is_mystery data j) eqn:Hm.
    + exfalso. apply hashes_differ.
      apply bool_decide_eq_true_1 in Hm. apply bool_decide_eq_true_1 in He.
      congruence.
    + rewrite He. left. reflexivity.
Qed.

(** X6. The test script prints the expected-hash marker exactly when
    some scanned record displays as the expected hash: the marker sits in
    an [elif] behind the mystery-hash test, but the two constants differ,
    so a record announced as the mystery hash is never the expected one
    and the [elif] hides nothing.  The marker names height 2000 whatever
    the height [i] of the record is. *)
Theorem expected_marker_is_never_masked (w : World) (data : list byte) :
  files w !! os_path_join (default "." (environ w !! "HOME")) segment_rel
    = Some data ->
  stdout w = [] ->
  let hash_hex i :=
    hex (rev (sha256 (sha256 (slice (i * 80) ((i + 1) * 80) data)))) in
  let out := stdout (snd (TestMysteryHash.main w)) in
  (In "    ^^^ This is the expected hash for height 2000" out <->
   exists i, 1998 <= i < 2003 /\ i * 80 + 80 <= length data /\
             hash_hex i = expected_hash) /\
  (forall i,
     In ("    ^^^ FOUND MYSTERY HASH at height " +:+ pretty i +:+ "!") out ->
     hash_hex i <> expected_hash).
Proof.
  intros Hfile Hout hash_hex out. subst out.
  rewrite (test_stdout w data Hfile), Hout, app_nil_l. split.
  - unfold test_analysis. rewrite !in_app_iff. split.
    + intros [Hin | [Hin | [Hin | Hin]]].
      * exfalso. unfold test_banner in Hin. cbn [In] in Hin.
        repeat (destruct Hin as [Heq | Hin]; [discriminate Heq|]). contradiction.
      * exfalso. unfold test_head in Hin. cbn [In] in Hin.
        repeat (destruct Hin as [Heq | Hin];
                [unfold nl in Heq; cbn [String.append] in Heq; discriminate Heq|]).
        contradiction.
      * apply in_flat_map in Hin as (j & Hj & Hin).
        apply in_scan_lines_expected in Hin as [Hg He].
        exists j. apply in_range in Hj. apply scan_guard_true in Hg.
        apply is_expected_true in He. auto.
      * exfalso. unfold recommendations in Hin. cbn [In] in Hin.
        repeat (destruct Hin as [Heq | Hin];
                [unfold nl in Heq; cbn [String.append] in Heq; discriminate Heq|]).
        contradiction.
    + intros (i & Hi & Hg & He). right. right. left.
      apply in_flat_map. exists i. split; [by apply in_range|].
      apply in_scan_lines_expected. split.
      * by apply scan_guard_true.
      * by apply is_expected_true.
  - intros i Hin.
    change (In (scan_found_line i)
               (test_banner ++
                test_analysis
                  (os_path_join (default "." (environ w !! "HOME")) segment_rel)
                  data)) in Hin.
    apply in_test_output_found in Hin as (_ & _ & Hm).
    apply is_mystery_true in Hm. fold (hash_hex i) in Hm. rewrite Hm.
    apply hashes_differ.
Qed.

End Window.

(** ** Which paths the scripts touch *)

Lemma string_app_assoc (s t u : string) : (s +:+ t) +:+ u = s +:+ t +:+ u.
Proof.
  induction s as [|c s IH]; [reflexivity|].
  change (String c ((s +:+ t) +:+ u) = String c (s +:+ t +:+ u)).
  by rewrite IH.
Qed.

Lemma segment_path_dir (home : string) :
  exists dir,
    os_path_join home segment_rel = dir +:+ segment_rel /\
    (dir = home \/ dir = home +:+ "/").
Proof.
  unfold os_path_join. change (starts_with_sep segment_rel) with false.
  cbv iota. destruct (bool_decide (home = EmptyString) || ends_with_sep home).
  - exists home. auto.
  - exists (home +:+ "/"). split; [|auto]. symmetry. apply string_app_assoc.
Qed.

Section Paths.
Context `{Hashlib}.

(** X7. Either script starts with one existence query on the segment
    path, and every file-system call after it (size query, open, read) is
    on that same path; there are such calls exactly when the file exists.
    The path is the fixed relative path behind HOME (or "." when HOME is
    unset), joined with or without a separator of its own: the relative
    part is never replaced, and with HOME unset the scripts look under
    the current directory. *)
Theorem scripts_touch_only_the_segment_path (w : World) :
  let home := default "." (environ w !! "HOME") in
  let path := os_path_join home segment_rel in
  (exists calls,
     fs_trace (snd (SearchMysteryHash.main w)) =
       fs_trace w ++ CallExists path :: calls /\
     Forall (fun c => call_path c = path) calls /\
     (calls = [] <-> files w !! path = None)) /\
  (exists calls,
     fs_trace (snd (TestMysteryHash.main w)) =
       fs_trace w ++ CallExists path :: calls /\
     Forall (fun c => call_path c = path) calls /\
     (calls = [] <-> files w !! path = None)) /\
  (exists dir, path = dir +:+ segment_rel /\ (dir = home \/ dir = home +:+ "/")) /\
  (environ w !! "HOME" = None -> path = "./" +:+ segment_rel).
Proof.
  intros home path.
  pose proof (search_main_runs w) as Hs. pose proof (test_main_runs w) as Ht.
  cbv zeta in Hs, Ht. unfold runs, segment_path in Hs, Ht.
  fold home in Hs, Ht. fold path in Hs, Ht.
  rewrite Hs, Ht. cbn [snd fs_trace effect].
  unfold search_calls, test_calls, segment_path. cbv zeta.
  fold home. fold path.
  split; [|split; [|split]].
  - destruct (files w !! path) as [data|].
    + eexists. split; [reflexivity|]. split; [by repeat constructor|].
      split; discriminate.
    + exists []. split; [reflexivity|]. split; [constructor | done].
  - destruct (files w !! path) as [data|].
    + eexists. split; [reflexivity|]. split; [by repeat constructor|].
      split; discriminate.
    + exists []. split; [reflexivity|]. split; [constructor | done].
  - apply segment_path_dir.
  - intros Hnone. subst path home. rewrite Hnone. reflexivity.
Qed.

End Paths.

(** ** The shape of a displayed hash *)

Lemma round_length (s : list N) (kw : N * N) :
  length s = 8 -> length (SHA256.round s kw) = 8.
Proof.
  intros Hs. do 9 (destruct s as [|? s]; try discriminate Hs). reflexivity.
Qed.

Lemma rounds_length (l : list (N * N)) (s : list N) :
  length s = 8 -> length (fold_left SHA256.round l s) = 8.
Proof.
  revert s. induction l as [|kw l IH]; intros s Hs; [exact Hs|].
  cbn [fold_left]. apply IH. by apply round_length.
Qed.

Lemma compress_length (h : list N) (block : list byte) :
  length h = 8 -> length (SHA256.compress h block) = 8.
Proof.
  intros Hh. unfold SHA256.compress. cbv zeta.
  rewrite length_map, length_combine, rounds_length by exact Hh. lia.
Qed.

Lemma be_bytes_length (n : nat) (x : N) : length (SHA256.be_bytes n x) = n.
Proof.
  revert x. induction n as [|n IH]; intros x; [reflexivity|].
  cbn [SHA256.be_bytes]. rewrite length_app, IH. cbn [length]. lia.
Qed.

Lemma sha256_length (msg : list byte) : length (SHA256.sha256 msg) = 32.
Proof.
  unfold SHA256.sha256. cbv zeta.
  set (blocks := SHA256.chunks _ _ _).
  assert (Hhs : length (fold_left SHA256.compress blocks SHA256.H0) = 8).
  { assert (Hh : length SHA256.H0 = 8) by reflexivity.
    revert Hh. generalize SHA256.H0. induction blocks as [|b bs IH]; intros h Hh.
    - exact Hh.
    - cbn [fold_left]. apply IH. by apply compress_length. }
  revert Hhs. generalize (fold_left SHA256.compress blocks SHA256.H0).
  intros hs Hhs. do 9 (destruct hs as [|? hs]; try discriminate Hhs).
  cbn [flat_map]. rewrite !length_app, !be_bytes_length. reflexivity.
Qed.

Lemma hex_length (bs : list byte) : String.length (hex bs) = 2 * length bs.
Proof.
  induction bs as [|b bs IH]; [reflexivity|].
  cbn [hex String.length length]. rewrite IH. lia.
Qed.

Lemma hex_digits_of_byte (b : byte) :
  forallb (fun c => existsb (Ascii.eqb c) (list_ascii_of_string "0123456789abcdef"))
          [hex_digit (Byte.to_N b / 16); hex_digit (Byte.to_N b mod 16)] = true.
Proof. destruct b; vm_compute; reflexivity. Qed.

Lemma hex_lowercase (bs : list byte) :
  Forall (fun c => In c (list_ascii_of_string "0123456789abcdef"))
         (list_ascii_of_string (hex bs)).
Proof.
  assert (Hin : forall c l, existsb (Ascii.eqb c) l = true -> In c l).
  { intros c l Hc. apply existsb_exists in Hc as (x & Hx & Heq).
    apply Ascii.eqb_eq in Heq. by subst. }
  induction bs as [|b bs IH]; [constructor|].
  pose proof (hex_digits_of_byte b) as Hb. cbn [forallb] in Hb.
  apply andb_prop in Hb as [H1 Hb]. apply andb_prop in Hb as [H2 _].
  cbn [hex list_ascii_of_string]. constructor; [by apply Hin|].
  constructor; [by apply Hin | exact IH].
Qed.

(** X8. Whatever the record, the hash the scripts display is a string of
    exactly 64 characters, all of them lowercase hexadecimal digits: the
    same length as the two constants it is compared with. *)
Theorem displayed_hashes_are_64_hex_digits (header : list byte) :
  let id := hex (rev (SHA256.sha256 (SHA256.sha256 header))) in
  String.length id = 64 /\
  Forall (fun c => In c (list_ascii_of_string "0123456789abcdef"))
         (list_ascii_of_string id) /\
  String.length id = String.length mystery_hash /\
  String.length id = String.length expected_hash.
Proof.
  intros id.
  assert (Hlen : String.length id = 64).
  { subst id. rewrite hex_length, length_rev, sha256_length. reflexivity. }
  split; [exact Hlen|]. split; [apply hex_lowercase|].
  rewrite Hlen. split; reflexivity.
Qed.

(** ** Short files, growing files, and what gets hashed *)

Lemma record_app (data more : list byte) (i : nat) :
  (i + 1) * 80 <= length data -> record (data ++ more) i = record data i.
Proof.
  intros Hi. unfold record, slice.
  rewrite drop_app_le by lia. apply take_app_le. rewrite length_drop. lia.
Qed.

Lemma flat_map_singleton {A} (l : list A) : flat_map (fun x => [x]) l = l.
Proof. induction l as [|a l IH]; [reflexivity|]. cbn [flat_map app]. by rewrite IH. Qed.

Section Edges.
Context `{Hashlib}.

Lemma search_sha_trace (w : World) (data : list byte) :
  files w !! os_path_join (default "." (environ w !! "HOME")) segment_rel
    = Some data ->
  sha_trace (snd (SearchMysteryHash.main w)) =
    sha_trace w ++ hashed_at data (search_hashed_heights data).
Proof.
  intros Hfile. pose proof (search_main_runs w) as Hs.
  cbv zeta in Hs. unfold runs, segment_path in Hs.
  rewrite Hfile in Hs. rewrite Hs. reflexivity.
Qed.

Lemma test_sha_trace (w : World) (data : list byte) :
  files w !! os_path_join (default "." (environ w !! "HOME")) segment_rel
    = Some data ->
  sha_trace (snd (TestMysteryHash.main w)) =
    sha_trace w ++
    hashed_at data (seq 1998 (Nat.min 2003 (length data / 80) - 1998)).
Proof.
  intros Hfile. pose proof (test_main_runs w) as Ht.
  cbv zeta in Ht. unfold runs, segment_path in Ht.
  rewrite Hfile in Ht. rewrite Ht. cbn [snd sha_trace effect].
  unfold test_hashed, test_hashed_heights. rewrite scanned_heights. reflexivity.
Qed.

(** X9. A segment shorter than one record (the empty file included):
    the search script reports 0 headers, both NOT-found messages, the
    file size with every byte counted as leftover, and an empty closing
    listing; neither script hands anything to the digest. *)
Theorem segment_shorter_than_a_record (w : World) (data : list byte) :
  files w !! os_path_join (default "." (environ w !! "HOME")) segment_rel
    = Some data ->
  length data < 80 ->
  stdout (snd (SearchMysteryHash.main w)) =
    stdout w ++
    [ "Searching for Mystery Hash in SPV Storage";
      "=========================================" +:+ nl;
      "Total headers in file: 0";
      "Searching for mystery hash..." +:+ nl;
      "❌ Mystery hash NOT found in the segment file";
      "   This suggests it's being generated incorrectly, not read from storage";
      "❌ Expected hash for height 2000 NOT found";
      "   The file may not contain headers up to 2000 yet";
      nl +:+ "File analysis:";
      "- File size: " +:+ pretty (length data) +:+ " bytes";
      "- Complete headers: 0";
      "- Leftover bytes: " +:+ pretty (length data);
      nl +:+ "Last 5 headers in file:" ] /\
  sha_trace (snd (SearchMysteryHash.main w)) = sha_trace w /\
  sha_trace (snd (TestMysteryHash.main w)) = sha_trace w.
Proof.
  intros Hfile Hshort.
  assert (Hn : length data / 80 = 0) by (by apply Nat.div_small).
  assert (Hr : length data mod 80 = length data) by (by apply Nat.mod_small).
  assert (Hz : pretty 0 = "0") by (vm_compute; reflexivity).
  split; [|split].
  - rewrite (search_parts w data Hfile).
    unfold search_head, search_verdict, search_sizes, search_banner.
    cbv zeta. rewrite Hn, Hr, Hz.
    change (range 0 0) with (@nil nat). change (last_range 0) with (@nil nat).
    cbn [flat_map existsb map]. rewrite <- !app_assoc. cbn [app]. reflexivity.
  - rewrite (search_sha_trace w data Hfile).
    unfold search_hashed_heights. cbv zeta. rewrite Hn.
    change (range 0 0) with (@nil nat). change (last_range 0) with (@nil nat).
    cbn [flat_map app]. unfold hashed_at. cbn [flat_map]. apply app_nil_r.
  - rewrite (test_sha_trace w data Hfile), Hn.
    replace (Nat.min 2003 0 - 1998) with 0 by lia.
    unfold hashed_at. cbn [seq flat_map]. apply app_nil_r.
Qed.

(** X10. Appending bytes to the segment never takes a match away: a
    height that either script announces for the file still is announced
    after the file has grown, since a complete record keeps its bytes
    when more bytes follow. *)
Theorem matches_survive_appending
    (w w' : World) (data more : list byte) (i : nat) :
  files w !! os_path_join (default "." (environ w !! "HOME")) segment_rel
    = Some data ->
  files w' !! os_path_join (default "." (environ w' !! "HOME")) segment_rel
    = Some (data ++ more) ->
  stdout w = [] ->
  stdout w' = [] ->
  (In ("🎯 FOUND MYSTERY HASH at height " +:+ pretty i +:+ "!")
      (stdout (snd (SearchMysteryHash.main w))) ->
   In ("🎯 FOUND MYSTERY HASH at height " +:+ pretty i +:+ "!")
      (stdout (snd (SearchMysteryHash.main w')))) /\
  (In ("✓ Found expected hash at height " +:+ pretty i)
      (stdout (snd (SearchMysteryHash.main w))) ->
   In ("✓ Found expected hash at height " +:+ pretty i)
      (stdout (snd (SearchMysteryHash.main w')))) /\
  (In ("    ^^^ FOUND MYSTERY HASH at height " +:+ pretty i +:+ "!")
      (stdout (snd (TestMysteryHash.main w))) ->
   In ("    ^^^ FOUND MYSTERY HASH at height " +:+ pretty i +:+ "!")
      (stdout (snd (TestMysteryHash.main w')))) /\
  (i * 80 + 80 <= length data ->
   slice (i * 80) ((i + 1) * 80) (data ++ more) =
   slice (i * 80) ((i + 1) * 80) data).
Proof.
  intros Hfile Hfile' Hout Hout'.
  rewrite (search_stdout w data Hfile), (search_stdout w' _ Hfile').
  rewrite (test_stdout w data Hfile), (test_stdout w' _ Hfile').
  rewrite Hout, Hout', !app_nil_l.
  assert (Hgrow : length data / 80 <= length (data ++ more) / 80).
  { apply Nat.Div0.div_le_mono. rewrite length_app. lia. }
  assert (Hrec : forall j, j < length data / 80 ->
                           record (data ++ more) j = record data j).
  { intros j Hj. apply record_app, complete_index, Hj. }
  split; [|split; [|split]].
  - intros Hin.
    change (In (found_mystery_line i) (search_banner ++ search_analysis data)) in Hin.
    change (In (found_mystery_line i)
               (search_banner ++ search_analysis (data ++ more))).
    apply in_search_output_mystery in Hin as [Hi Hm].
    apply in_search_output_mystery. split; [lia|].
    unfold is_mystery in Hm |- *. by rewrite Hrec.
  - intros Hin.
    change (In (found_expected_line i) (search_banner ++ search_analysis data)) in Hin.
    change (In (found_expected_line i)
               (search_banner ++ search_analysis (data ++ more))).
    apply in_search_output_expected in Hin as [Hi He].
    apply in_search_output_expected. split; [lia|].
    unfold is_expected in He |- *. by rewrite Hrec.
  - intros Hin.
    match type of Hin with In _ ?l =>
      change (In (scan_found_line i) l) in Hin end.
    match goal with |- In _ ?l => change (In (scan_found_line i) l) end.
    apply in_test_output_found in Hin as (Hi & Hg & Hm).
    apply in_test_output_found. apply scan_guard_true in Hg.
    split; [exact Hi|]. split.
    + apply scan_guard_true. rewrite length_app. lia.
    + unfold is_mystery in Hm |- *. rewrite Hrec; [exact Hm|].
      apply complete_index. lia.
  - intros Hi. apply (record_app data more i). lia.
Qed.

(** X11. The search script hands every complete record of the segment,
    and the digest of every complete record, to the digest.  When no
    record displays as the mystery hash, the digest calls are exactly
    those of the heights [0 .. n-1] followed by those of the last
    [min(5, n)] heights again. *)
Theorem search_hashes_every_complete_record (w : World) (data : list byte) :
  files w !! os_path_join (default "." (environ w !! "HOME")) segment_rel
    = Some data ->
  let n := length data / 80 in
  let header i := slice (i * 80) ((i + 1) * 80) data in
  let hashed := sha_trace (snd (SearchMysteryHash.main w)) in
  (forall i, i < n -> In (header i) hashed /\ In (sha256 (header i)) hashed) /\
  ((forall i, i < n -> hex (rev (sha256 (sha256 (header i)))) <> mystery_hash) ->
   hashed =
     sha_trace w ++
     flat_map (fun i => [header i; sha256 (header i)])
              (seq 0 n ++ seq (n - Nat.min 5 n) (Nat.min 5 n))).
Proof.
  intros Hfile n header hashed. subst hashed.
  rewrite (search_sha_trace w data Hfile).
  unfold search_hashed_heights. cbv zeta. fold n. split.
  - intros i Hi.
    assert (Hin : In i (flat_map (search_heights data n) (range 0 n) ++ last_range n)).
    { apply in_or_app. left. apply in_flat_map. exists i.
      split; [apply in_range; lia | by left]. }
    split; apply in_or_app; right; apply in_flat_map; exists i;
      (split; [exact Hin|]).
    + left. reflexivity.
    + right. left. reflexivity.
  - intros Hnone.
    rewrite (flat_map_ext_in (search_heights data n) (fun i => [i])).
    + rewrite flat_map_singleton, last_range_seq. unfold range.
      rewrite Nat.sub_0_r. reflexivity.
    + intros i Hi. apply in_range in Hi. unfold search_heights.
      destruct (is_mystery data i) eqn:Hm; [|reflexivity].
      apply is_mystery_true in Hm. exfalso. apply (Hnone i); [lia | exact Hm].
Qed.

End Edges.

(** ** The further properties on the demo segment *)

(** Witness of X1: nothing in the demo segment hashes to the mystery
    hash, so the NOT-found line is printed. *)
Lemma not_found_is_reported_exactly_without_a_match_witness :
  (files Demo.world
     !! os_path_join (default "." (environ Demo.world !! "HOME")) segment_rel
     = Some Demo.segment /\
   stdout Demo.world = []) /\
  In "❌ Mystery hash NOT found in the segment file"
     (stdout (snd (@SearchMysteryHash.main fips180 Demo.world))).
Proof.
  assert (Hfile : files Demo.world
     !! os_path_join (default "." (environ Demo.world !! "HOME")) segment_rel
     = Some Demo.segment) by (vm_compute; reflexivity).
  split; [split; [exact Hfile | reflexivity]|].
  pose proof (@not_found_is_reported_exactly_without_a_match fips180
                Demo.world Demo.segment Hfile eq_refl) as Hthm.
  cbv zeta in Hthm. destruct Hthm as (Hm & _). apply (proj2 Hm).
  intros i Hi. change (length Demo.segment / 80) with 2 in Hi.
  destruct i as [|[|i]]; [| |lia]; intros Heq; vm_compute in Heq; discriminate Heq.
Defined.

(** Witness of X2: the demo segment and the same segment without its
    leftover byte. *)
Lemma leftover_bytes_only_change_the_size_lines_witness :
  (files Demo.world
     !! os_path_join (default "." (environ Demo.world !! "HOME")) segment_rel
     = Some Demo.segment /\
   files Demo.trimmed_world
     !! os_path_join (default "." (environ Demo.trimmed_world !! "HOME"))
          segment_rel
     = Some (take (length Demo.segment / 80 * 80) Demo.segment)) /\
  exists before after,
    stdout (snd (@SearchMysteryHash.main fips180 Demo.world)) =
      stdout Demo.world ++ before ++
      [ "- File size: " +:+ pretty (length Demo.segment) +:+ " bytes";
        "- Complete headers: " +:+ pretty (length Demo.segment / 80);
        "- Leftover bytes: " +:+ pretty (length Demo.segment mod 80) ] ++ after /\
    stdout (snd (@SearchMysteryHash.main fips180 Demo.trimmed_world)) =
      stdout Demo.trimmed_world ++ before ++
      [ "- File size: " +:+ pretty (length Demo.segment / 80 * 80) +:+ " bytes";
        "- Complete headers: " +:+ pretty (length Demo.segment / 80);
        "- Leftover bytes: " +:+ pretty 0 ] ++ after.
Proof.
  assert (Hfile : files Demo.world
     !! os_path_join (default "." (environ Demo.world !! "HOME")) segment_rel
     = Some Demo.segment) by (vm_compute; reflexivity).
  assert (Hfile' : files Demo.trimmed_world
     !! os_path_join (default "." (environ Demo.trimmed_world !! "HOME"))
          segment_rel
     = Some (take (length Demo.segment / 80 * 80) Demo.segment))
    by (vm_compute; reflexivity).
  split; [split; [exact Hfile | exact Hfile']|].
  pose proof (@leftover_bytes_only_change_the_size_lines fips180
                Demo.world Demo.trimmed_world Demo.segment Hfile Hfile') as Hthm.
  cbv zeta in Hthm. destruct Hthm as (before & after & Hw & Hw' & _).
  exists before, after. split; [exact Hw | exact Hw'].
Defined.

(** Witness of X3: the closing listing of the demo segment. *)
Lemma last_listing_shows_the_final_records_witness :
  files Demo.world
    !! os_path_join (default "." (environ Demo.world !! "HOME")) segment_rel
    = Some Demo.segment /\
  exists before,
    stdout (snd (@SearchMysteryHash.main fips180 Demo.world)) =
      before ++ [nl +:+ "Last 5 headers in file:"] ++
      map (fun i =>
             "  Height " +:+ pretty i +:+ ": " +:+
             hex (rev (@sha256 fips180 (@sha256 fips180
                    (slice (i * 80) ((i + 1) * 80) Demo.segment)))))
          (seq (length Demo.segment / 80 - Nat.min 5 (length Demo.segment / 80))
               (Nat.min 5 (length Demo.segment / 80))).
Proof.
  assert (Hfile : files Demo.world
     !! os_path_join (default "." (environ Demo.world !! "HOME")) segment_rel
     = Some Demo.segment) by (vm_compute; reflexivity).
  split; [exact Hfile|].
  pose proof (@last_listing_shows_the_final_records fips180
                Demo.world Demo.segment Hfile) as Hthm.
  cbv zeta in Hthm. exact Hthm.
Defined.

(** Witness of X4: under the stand-in digest the first record of the demo
    segment displays as the mystery hash, and the listing around it
    follows the announcement. *)
Lemma match_is_listed_with_its_neighbours_witness :
  (files Demo.world
     !! os_path_join (default "." (environ Demo.world !! "HOME")) segment_rel
     = Some Demo.segment /\
   0 * 80 + 80 <= length Demo.segment /\
   hex (rev (@sha256 Demo.oracle (@sha256 Demo.oracle
          (slice (0 * 80) ((0 + 1) * 80) Demo.segment)))) = mystery_hash) /\
  exists before after,
    stdout (snd (@SearchMysteryHash.main Demo.oracle Demo.world)) =
      before ++
      [ "🎯 FOUND MYSTERY HASH at height " +:+ pretty 0 +:+ "!";
        nl +:+ "Surrounding headers:" ] ++
      map (fun j =>
             "  Height " +:+ pretty j +:+ ": " +:+
             hex (rev (@sha256 Demo.oracle (@sha256 Demo.oracle
                    (slice (j * 80) ((j + 1) * 80) Demo.segment)))) +:+
             (if bool_decide (j = 0) then " <-- MYSTERY" else ""))
          (seq (0 - 2) (Nat.min (length Demo.segment / 80) (0 + 3) - (0 - 2))) ++
      [""] ++ after.
Proof.
  assert (Hfile : files Demo.world
     !! os_path_join (default "." (environ Demo.world !! "HOME")) segment_rel
     = Some Demo.segment) by (vm_compute; reflexivity).
  assert (Hlen : 0 * 80 + 80 <= length Demo.segment)
    by (apply Nat.leb_le; vm_compute; reflexivity).
  assert (Hmys : hex (rev (@sha256 Demo.oracle (@sha256 Demo.oracle
          (slice (0 * 80) ((0 + 1) * 80) Demo.segment)))) = mystery_hash)
    by (vm_compute; reflexivity).
  split; [split; [exact Hfile | split; [exact Hlen | exact Hmys]]|].
  pose proof (@match_is_listed_with_its_neighbours Demo.oracle
                Demo.world Demo.segment 0 Hfile Hlen Hmys) as Hthm.
  cbv zeta in Hthm. destruct Hthm as (before & after & Hw & _).
  exists before, after. exact Hw.
Defined.

(** What the search script prints on that match, in full. *)
Example search_demo_match :
  stdout (snd (@SearchMysteryHash.main Demo.oracle Demo.world)) =
  [ "Searching for Mystery Hash in SPV Storage";
    "=========================================" +:+ nl;
    "Total headers in file: 2";
    "Searching for mystery hash..." +:+ nl;
    "🎯 FOUND MYSTERY HASH at height 0!";
    nl +:+ "Surrounding headers:";
    "  Height 0: 00000014ae902cd16b2109ee531d006780ad3303af01e7b938e182c30c99f749 <-- MYSTERY";
    "  Height 1: " +:+ hex (repeat x00 80);
    "";
    "❌ Expected hash for height 2000 NOT found";
    "   The file may not contain headers up to 2000 yet";
    nl +:+ "File analysis:";
    "- File size: 161 bytes";
    "- Complete headers: 2";
    "- Leftover bytes: 1";
    nl +:+ "Last 5 headers in file:";
    "  Height 0: 00000014ae902cd16b2109ee531d006780ad3303af01e7b938e182c30c99f749";
    "  Height 1: " +:+ hex (repeat x00 80) ].
Proof. vm_compute. reflexivity. Qed.

(** Witness of X5: the demo segment ends long before height 1998, so the
    scan hashes nothing. *)
Lemma scan_covers_the_complete_part_of_its_window_witness :
  files Demo.world
    !! os_path_join (default "." (environ Demo.world !! "HOME")) segment_rel
    = Some Demo.segment /\
  sha_trace (snd (@TestMysteryHash.main fips180 Demo.world)) =
    sha_trace Demo.world ++
    flat_map (fun i => [slice (i * 80) ((i + 1) * 80) Demo.segment;
                        @sha256 fips180
                          (slice (i * 80) ((i + 1) * 80) Demo.segment)])
             (seq 1998 (Nat.min 2003 (length Demo.segment / 80) - 1998)).
Proof.
  assert (Hfile : files Demo.world
     !! os_path_join (default "." (environ Demo.world !! "HOME")) segment_rel
     = Some Demo.segment) by (vm_compute; reflexivity).
  split; [exact Hfile|].
  pose proof (@scan_covers_the_complete_part_of_its_window fips180
                Demo.world Demo.segment Hfile) as Hthm.
  cbv zeta in Hthm. destruct Hthm as (Hsha & _). exact Hsha.
Defined.

(** Witness of X6: a match announced by the test script on the demo
    segment would not be the expected hash. *)
Lemma expected_marker_is_never_masked_witness :
  (files Demo.world
     !! os_path_join (default "." (environ Demo.world !! "HOME")) segment_rel
     = Some Demo.segment /\
   stdout Demo.world = []) /\
  (In "    ^^^ This is the expected hash for height 2000"
      (stdout (snd (@TestMysteryHash.main fips180 Demo.world))) <->
   exists i, 1998 <= i < 2003 /\ i * 80 + 80 <= length Demo.segment /\
     hex (rev (@sha256 fips180 (@sha256 fips180
            (slice (i * 80) ((i + 1) * 80) Demo.segment)))) = expected_hash).
Proof.
  assert (Hfile : files Demo.world
     !! os_path_join (default "." (environ Demo.world !! "HOME")) segment_rel
     = Some Demo.segment) by (vm_compute; reflexivity).
  split; [split; [exact Hfile | reflexivity]|].
  pose proof (@expected_marker_is_never_masked fips180
                Demo.world Demo.segment Hfile eq_refl) as Hthm.
  cbv zeta in Hthm. exact (proj1 Hthm).
Defined.

(** Witness of X9: a segment of three bytes. *)
Lemma segment_shorter_than_a_record_witness :
  (files Demo.short_world
     !! os_path_join (default "." (environ Demo.short_world !! "HOME")) segment_rel
     = Some [x01; x02; x03] /\
   length [x01; x02; x03] < 80) /\
  sha_trace (snd (@SearchMysteryHash.main fips180 Demo.short_world)) =
    sha_trace Demo.short_world /\
  sha_trace (snd (@TestMysteryHash.main fips180 Demo.short_world)) =
    sha_trace Demo.short_world.
Proof.
  assert (Hfile : files Demo.short_world
     !! os_path_join (default "." (environ Demo.short_world !! "HOME")) segment_rel
     = Some [x01; x02; x03]) by (vm_compute; reflexivity).
  assert (Hshort : length [x01; x02; x03] < 80) by (cbn [length]; lia).
  split; [split; [exact Hfile | exact Hshort]|].
  exact (proj2 (@segment_shorter_than_a_record fips180 Demo.short_world
                  [x01; x02; x03] Hfile Hshort)).
Defined.

(** Witness of X10: the demo segment, and the demo segment after 79 more
    bytes have completed its third record. *)
Lemma matches_survive_appending_witness :
  (files Demo.world
     !! os_path_join (default "." (environ Demo.world !! "HOME")) segment_rel
     = Some Demo.segment /\
   files Demo.grown_world
     !! os_path_join (default "." (environ Demo.grown_world !! "HOME")) segment_rel
     = Some (Demo.segment ++ repeat x00 79) /\
   stdout Demo.world = [] /\
   stdout Demo.grown_world = []) /\
  (0 * 80 + 80 <= length Demo.segment ->
   slice (0 * 80) ((0 + 1) * 80) (Demo.segment ++ repeat x00 79) =
   slice (0 * 80) ((0 + 1) * 80) Demo.segment).
Proof.
  assert (Hfile : files Demo.world
     !! os_path_join (default "." (environ Demo.world !! "HOME")) segment_rel
     = Some Demo.segment) by (vm_compute; reflexivity).
  assert (Hfile' : files Demo.grown_world
     !! os_path_join (default "." (environ Demo.grown_world !! "HOME")) segment_rel
     = Some (Demo.segment ++ repeat x00 79)) by (vm_compute; reflexivity).
  split; [split; [exact Hfile | split; [exact Hfile' | split; reflexivity]]|].
  pose proof (@matches_survive_appending fips180 Demo.world Demo.grown_world
                Demo.segment (repeat x00 79) 0 Hfile Hfile' eq_refl eq_refl)
    as Hthm.
  destruct Hthm as (_ & _ & _ & Hslice). exact Hslice.
Defined.

(** Witness of X11: both records of the demo segment reach the digest. *)
Lemma search_hashes_every_complete_record_witness :
  files Demo.world
    !! os_path_join (default "." (environ Demo.world !! "HOME")) segment_rel
    = Some Demo.segment /\
  forall i, i < length Demo.segment / 80 ->
    In (slice (i * 80) ((i + 1) * 80) Demo.segment)
       (sha_trace (snd (@SearchMysteryHash.main fips180 Demo.world))) /\
    In (@sha256 fips180 (slice (i * 80) ((i + 1) * 80) Demo.segment))
       (sha_trace (snd (@SearchMysteryHash.main fips180 Demo.world))).
Proof.
  assert (Hfile : files Demo.world
     !! os_path_join (default "." (environ Demo.world !! "HOME")) segment_rel
     = Some Demo.segment) by (vm_compute; reflexivity).
  split; [exact Hfile|].
  pose proof (@search_hashes_every_complete_record fips180
                Demo.world Demo.segment Hfile) as Hthm.
  cbv zeta in Hthm. exact (proj1 Hthm).
Defined.
